(** * Alternate p2m view table of an ARM guest (xen/arch/arm/altp2m.c)

    A shallow embedding of the view-table lifecycle and binding manager:
    the per-domain array [altp2m_p2m] of view pointers, the per-vcpu index
    [ap2m_idx], the per-view counter [active_vcpus], and the operations of
    altp2m.c that create, bind, switch, destroy and flush views.

    Every C function of the file becomes a computation in a small monad
    that threads the domain, records the externally visible calls it makes
    (pause, lock, allocation, view initialisation, teardown, free, slot
    stores) in program order, and can stop with a fault where the C code
    would hit [BUG_ON], a failed [ASSERT] or a NULL dereference. *)

From Stdlib Require Import ZArith List Lia Bool.
From stdpp Require Import base list numbers.

Local Open Scope Z_scope.

(** ** Constants declared outside altp2m.c *)

(** Modelled from the spec: the errno macros are declared in Xen's public
    errno header, outside altp2m.c.  The functions return them negated in
    an [int]; the numbers are those of that header. *)
Definition ENOENT : Z := 2.
Definition ENOMEM : Z := 12.
Definition EBUSY : Z := 16.
Definition EINVAL : Z := 22.

(** Modelled from the spec: the error kinds the specification speaks of,
    and the return value of an [int]-returning operation read as one of
    them ([EINVAL] is the invalid-argument, [ENOMEM] the out-of-memory,
    [EBUSY] the busy and [ENOENT] the not-found code). *)
Inductive error_kind : Type :=
| Success
| InvalidArgument
| OutOfMemory
| Busy
| NotFound
| OtherError (rc : Z).

Definition kind_of_rc (rc : Z) : error_kind :=
  if decide (rc = 0) then Success
  else if decide (rc = - EINVAL) then InvalidArgument
  else if decide (rc = - ENOMEM) then OutOfMemory
  else if decide (rc = - EBUSY) then Busy
  else if decide (rc = - ENOENT) then NotFound
  else OtherError rc.

(** ** The counter type [atomic_t] *)

(** Modelled from the spec: [atomic_t], [atomic_inc], [atomic_dec] and
    [atomic_read] are declared in asm/atomic.h, outside altp2m.c; the
    specification describes a counter updated by atomic increment and
    decrement.  [atomic_t] wraps an [int], so the updates add and subtract
    one with two's-complement wrap-around. *)
Definition INT_MAX : Z := 2 ^ 31 - 1.

Definition wrap_int (z : Z) : Z := (z + 2 ^ 31) mod 2 ^ 32 - 2 ^ 31.

Definition atomic_inc (c : Z) : Z := wrap_int (c + 1).
Definition atomic_dec (c : Z) : Z := wrap_int (c - 1).

(** ** Data model *)

Inductive p2m_class_t : Type := p2m_host | p2m_alternate.

(** [struct p2m_domain], restricted to the fields altp2m.c touches. *)
Record p2m_domain : Type := mk_p2m {
  p2m_class : p2m_class_t;
  active_vcpus : Z
}.

(** [struct vcpu]: the index of the view the vcpu is bound to. *)
Record vcpu : Type := mk_vcpu { ap2m_idx : nat }.

(** [struct domain]: the slot table ([NULL] is [None]; every non-NULL
    entry exclusively owns its view, so the view is stored in the slot),
    the activation flag, and the vcpus in [for_each_vcpu] order. *)
Record domain : Type := mk_domain {
  altp2m_p2m : list (option p2m_domain);
  altp2m_active : bool;
  vcpus : list vcpu
}.

(** A [struct p2m_domain *] that is either NULL or points to the view
    owned by the slot of the given index. *)
Definition p2m_ref : Type := option nat.

(** [d->arch.altp2m_p2m[i]]. *)
Definition slot (d : domain) (i : nat) : option p2m_domain :=
  match altp2m_p2m d !! i with
  | Some entry => entry
  | None => None
  end.

Definition set_slots (d : domain) (s : list (option p2m_domain)) : domain :=
  mk_domain s (altp2m_active d) (vcpus d).

Definition set_vcpus (d : domain) (vs : list vcpu) : domain :=
  mk_domain (altp2m_p2m d) (altp2m_active d) vs.

Definition set_active (d : domain) (b : bool) : domain :=
  mk_domain (altp2m_p2m d) b (vcpus d).

(** ** Effects *)

(** Calls into the rest of the hypervisor and stores into the slot table,
    in program order.  Views are named by the slot they are (to be)
    owned by. *)
Inductive event : Type :=
| EvSpinLockInit
| EvDomainPauseExceptSelf
| EvDomainUnpauseExceptSelf
| EvLock
| EvUnlock
| EvVcpuPause (v : nat)
| EvVcpuUnpause (v : nat)
| EvXzalloc (idx : nat) (ok : bool)
| EvInitOne (idx : nat) (rc : Z)
| EvTeardownOne (idx : nat)
| EvXfree (idx : nat)
| EvStoreView (idx : nat)
| EvStoreNull (idx : nat).

Global Instance event_eq_dec : EqDecision event.
Proof. solve_decision. Defined.

(** Ways in which the C code stops the hypervisor. *)
Inductive fault : Type := BUG | ASSERT_FAILED | NULL_DEREF.

Inductive outcome (A : Type) : Type :=
| Done (a : A) (d : domain) (log : list event)
| Fault (f : fault).
Arguments Done {A} a d log.
Arguments Fault {A} f.

Definition M (A : Type) : Type := domain -> outcome A.

Definition ret {A} (a : A) : M A := fun d => Done a d [].

Definition bind {A B} (m : M A) (k : A -> M B) : M B :=
  fun d =>
    match m d with
    | Done a d1 l1 =>
        match k a d1 with
        | Done b d2 l2 => Done b d2 (l1 ++ l2)
        | Fault f => Fault f
        end
    | Fault f => Fault f
    end.

Definition fail {A} (f : fault) : M A := fun _ => Fault f.
Definition emit (e : event) : M unit := fun d => Done tt d [e].
Definition get : M domain := fun d => Done d d [].
Definition put (d : domain) : M unit := fun _ => Done tt d [].

Declare Scope altp2m_scope.
Delimit Scope altp2m_scope with altp2m.
Notation "'let*' x ':=' c1 'in' c2" := (bind c1 (fun x => c2))
  (at level 10, x name, c1 at level 100, c2 at level 200) : altp2m_scope.
Notation "c1 ';;' c2" := (bind c1 (fun _ => c2))
  (at level 100, c2 at level 200, right associativity) : altp2m_scope.
Local Open Scope altp2m_scope.

(** Modelled from the spec: [BUG_ON] and [ASSERT] are macros of the
    headers; a violated [BUG_ON(c)] or [ASSERT(c)] is fatal ([ASSERT] as in
    a debug build, where it is compiled in). *)
Definition BUG_ON (c : bool) : M unit := if c then fail BUG else ret tt.
Definition ASSERT (c : bool) : M unit := if c then ret tt else fail ASSERT_FAILED.

(** [for ( i = lo; i < lo + n; i++ ) body(i);] for a body without [break]. *)
Fixpoint for_range (lo : nat) (n : nat) (body : nat -> M unit) : M unit :=
  match n with
  | O => ret tt
  | S n' => body lo ;; for_range (S lo) n' body
  end.

(** [for_each_vcpu ( d, v ) body(v);] vcpus are named by their position. *)
Definition for_each_vcpu (body : nat -> M unit) : M unit :=
  let* d := get in for_range 0 (length (vcpus d)) body.

(** [v->arch.ap2m_idx]; a vcpu that does not exist is a NULL [v]. *)
Definition read_ap2m_idx (v : nat) : M nat :=
  let* d := get in
  match vcpus d !! v with
  | Some x => ret (ap2m_idx x)
  | None => fail NULL_DEREF
  end.

(** [v->arch.ap2m_idx = idx;] *)
Definition write_ap2m_idx (v : nat) (idx : nat) : M unit :=
  let* d := get in
  match vcpus d !! v with
  | Some _ => put (set_vcpus d (<[v := mk_vcpu idx]> (vcpus d)))
  | None => fail NULL_DEREF
  end.

(** The pointer read from [d->arch.altp2m_p2m[idx]]. *)
Definition read_slot (idx : nat) : M p2m_ref :=
  let* d := get in
  ret (match slot d idx with Some _ => Some idx | None => None end).

(** [d->arch.altp2m_p2m[idx] = p2m;] for a freshly built view. *)
Definition store_view (idx : nat) (p : p2m_domain) : M unit :=
  let* d := get in
  put (set_slots d (<[idx := Some p]> (altp2m_p2m d))) ;;
  emit (EvStoreView idx).

(** [d->arch.altp2m_p2m[idx] = NULL;] *)
Definition store_null (idx : nat) : M unit :=
  let* d := get in
  put (set_slots d (<[idx := None]> (altp2m_p2m d))) ;;
  emit (EvStoreNull idx).

(** Update of the counter behind a view pointer; NULL faults. *)
Definition update_active_vcpus (f : Z -> Z) (p : p2m_ref) : M unit :=
  match p with
  | None => fail NULL_DEREF
  | Some i =>
      let* d := get in
      match slot d i with
      | Some v =>
          put (set_slots d
                 (<[i := Some (mk_p2m (p2m_class v) (f (active_vcpus v)))]>
                    (altp2m_p2m d)))
      | None => fail NULL_DEREF
      end
  end.

(** [atomic_read(&p->active_vcpus)]. *)
Definition read_active_vcpus (p : p2m_ref) : M Z :=
  match p with
  | None => fail NULL_DEREF
  | Some i =>
      let* d := get in
      match slot d i with
      | Some v => ret (active_vcpus v)
      | None => fail NULL_DEREF
      end
  end.

(** Modelled from the spec: [xzalloc], [xfree], [p2m_init_one] and
    [p2m_teardown_one] are defined outside altp2m.c.  They appear as events
    of the log; an [env] fixes what the allocator and [p2m_init_one] answer
    during one call. *)
Record env : Type := mk_env {
  xzalloc_ok : bool;
  p2m_init_one_rc : Z
}.

(** ** The operations of altp2m.c *)

Section Altp2m.

(** [MAX_ALTP2M] (the number of slots) and [INVALID_ALTP2M] (the index of
    an unbound vcpu) are macros of the headers, taken as parameters. *)
Variable MAX_ALTP2M : nat.
Variable INVALID_ALTP2M : nat.

Definition altp2m_get_altp2m (v : nat) : M p2m_ref :=
  let* idx := read_ap2m_idx v in
  if bool_decide (idx = INVALID_ALTP2M) then ret None
  else
    BUG_ON (bool_decide (MAX_ALTP2M <= idx)%nat) ;;
    read_slot idx.

(** Body of the [for_each_vcpu] loop of the switch. *)
Definition switch_vcpu (idx : nat) (v : nat) : M unit :=
  let* cur := read_ap2m_idx v in
  if bool_decide (idx = cur) then ret tt
  else
    let* old := altp2m_get_altp2m v in
    update_active_vcpus atomic_dec old ;;
    write_ap2m_idx v idx ;;
    let* new := altp2m_get_altp2m v in
    update_active_vcpus atomic_inc new.

Definition altp2m_switch_domain_altp2m_by_id (idx : nat) : M Z :=
  let rc := - EINVAL in
  if bool_decide (MAX_ALTP2M <= idx)%nat then ret rc
  else
    emit EvDomainPauseExceptSelf ;;
    emit EvLock ;;
    let* p := read_slot idx in
    let* rc :=
      match p with
      | Some _ => for_each_vcpu (switch_vcpu idx) ;; ret 0
      | None => ret rc
      end in
    emit EvUnlock ;;
    emit EvDomainUnpauseExceptSelf ;;
    ret rc.

Definition altp2m_vcpu_reset (v : nat) : M unit :=
  write_ap2m_idx v INVALID_ALTP2M.

Definition altp2m_vcpu_initialize (v : nat) : M unit :=
  emit (EvVcpuPause v) ;;
  write_ap2m_idx v 0 ;;
  let* p := altp2m_get_altp2m v in
  update_active_vcpus atomic_inc p ;;
  emit (EvVcpuUnpause v).

(** [current] is the position of the calling vcpu when it belongs to this
    domain. *)
Definition altp2m_vcpu_destroy (current : option nat) (v : nat) : M unit :=
  (if bool_decide (Some v <> current) then emit (EvVcpuPause v) else ret tt) ;;
  let* p2m := altp2m_get_altp2m v in
  match p2m with
  | Some _ => update_active_vcpus atomic_dec p2m
  | None => ret tt
  end ;;
  altp2m_vcpu_reset v ;;
  (if bool_decide (Some v <> current) then emit (EvVcpuUnpause v) else ret tt).

(** [xzalloc] yields a zeroed view, whose class is then set; the view's
    further fields, which [p2m_init_one] fills in, are not modelled. *)
Definition altp2m_init_helper (e : env) (idx : nat) : M Z :=
  let* p2m := read_slot idx in
  ASSERT (bool_decide (p2m = None)) ;;
  emit (EvXzalloc idx (xzalloc_ok e)) ;;
  if negb (xzalloc_ok e) then ret (- ENOMEM)
  else
    let zeroed := mk_p2m p2m_host 0 in
    let p2m := mk_p2m p2m_alternate (active_vcpus zeroed) in
    let rc := p2m_init_one_rc e in
    emit (EvInitOne idx rc) ;;
    if bool_decide (rc <> 0) then
      emit (EvXfree idx) ;;
      store_null idx ;;
      ret rc
    else
      store_view idx p2m ;;
      ret rc.

Definition altp2m_init_by_id (e : env) (idx : nat) : M Z :=
  let rc := - EINVAL in
  if bool_decide (MAX_ALTP2M <= idx)%nat then ret rc
  else
    emit EvLock ;;
    let* p := read_slot idx in
    let* rc :=
      match p with
      | None => altp2m_init_helper e idx
      | Some _ => ret rc
      end in
    emit EvUnlock ;;
    ret rc.

(** The scan [for ( i = ...; i < MAX_ALTP2M; i++ )] with [n] iterations
    left; the second component is the value stored through [idx], if any. *)
Fixpoint init_next_scan (e : env) (i : nat) (n : nat) : M (Z * option nat) :=
  match n with
  | O => ret (- EINVAL, None)
  | S n' =>
      let* p := read_slot i in
      match p with
      | Some _ => init_next_scan e (S i) n'
      | None =>
          let* rc := altp2m_init_helper e i in
          ret (rc, Some i)
      end
  end.

Definition altp2m_init_next_available (e : env) : M (Z * option nat) :=
  emit EvLock ;;
  let* r := init_next_scan e 0 MAX_ALTP2M in
  emit EvUnlock ;;
  ret r.

Definition altp2m_init : M Z :=
  emit EvSpinLockInit ;;
  let* d := get in
  put (set_active d false) ;;
  ret 0.

Definition flush_slot (i : nat) : M unit :=
  let* p2m := read_slot i in
  match p2m with
  | None => ret tt
  | Some _ =>
      let* c := read_active_vcpus p2m in
      ASSERT (bool_decide (c = 0)) ;;
      emit (EvTeardownOne i) ;;
      emit (EvXfree i) ;;
      store_null i
  end.

Definition altp2m_flush : M unit :=
  let* d := get in
  ASSERT (negb (altp2m_active d)) ;;
  emit EvLock ;;
  for_range 0 MAX_ALTP2M flush_slot ;;
  emit EvUnlock.

Definition altp2m_destroy_by_id (idx : nat) : M Z :=
  let rc := - EBUSY in
  if bool_decide (idx = 0%nat) || bool_decide (MAX_ALTP2M <= idx)%nat then ret rc
  else
    emit EvDomainPauseExceptSelf ;;
    emit EvLock ;;
    let* p2m := read_slot idx in
    let* rc :=
      match p2m with
      | Some _ =>
          let* c := read_active_vcpus p2m in
          if bool_decide (c = 0) then
            emit (EvTeardownOne idx) ;;
            emit (EvXfree idx) ;;
            store_null idx ;;
            ret 0
          else ret rc
      | None => ret rc
      end in
    emit EvUnlock ;;
    emit EvDomainUnpauseExceptSelf ;;
    ret rc.

Definition teardown_slot (i : nat) : M unit :=
  let* p2m := read_slot i in
  match p2m with
  | None => ret tt
  | Some _ =>
      emit (EvTeardownOne i) ;;
      emit (EvXfree i)
  end.

Definition altp2m_teardown : M unit :=
  for_range 0 MAX_ALTP2M teardown_slot.

End Altp2m.

(** ** Invariants and derived quantities *)

(** The number of vcpus of [vs] bound to the view of index [i]. *)
Definition bound_count (i : nat) (vs : list vcpu) : nat :=
  length (filter (fun v => ap2m_idx v = i) vs).


(** I2: the counter of every occupied slot equals the number of vcpus
    bound to it. *)
Definition I2 (d : domain) : Prop :=
  forall i p, slot d i = Some p ->
    active_vcpus p = Z.of_nat (bound_count i (vcpus d)).

(** The net change the switch to [k] makes to the counter of slot [i]
    while it walks the vcpus [vs]: each vcpu not yet bound to [k] takes
    one from its old view and gives one to view [k]. *)
Fixpoint rebind_delta (k : nat) (vs : list vcpu) (i : nat) : Z :=
  match vs with
  | [] => 0
  | v :: vs' =>
      (if decide (ap2m_idx v = k) then 0
       else (if decide (i = k) then 1 else 0)
            - (if decide (i = ap2m_idx v) then 1 else 0))
      + rebind_delta k vs' i
  end.

(** The counter of slot [i], starting from [c], after the switch to [k]
    has walked the vcpus [vs]. *)
Fixpoint rebind_counter (k : nat) (vs : list vcpu) (i : nat) (c : Z) : Z :=
  match vs with
  | [] => c
  | v :: vs' =>
      rebind_counter k vs' i
        (if decide (ap2m_idx v = k) then c
         else if decide (i = ap2m_idx v) then atomic_dec c
         else if decide (i = k) then atomic_inc c
         else c)
  end.

(** A vcpu the switch to [k] can rebind: it is already bound to [k], or
    it is bound to an occupied slot. *)
Definition rebindable (MAX_ALTP2M INVALID_ALTP2M : nat) (d : domain)
    (k : nat) (v : vcpu) : Prop :=
  ap2m_idx v = k \/
  (ap2m_idx v <> INVALID_ALTP2M /\ (ap2m_idx v < MAX_ALTP2M)%nat /\
   is_Some (slot d (ap2m_idx v))).

(** The view with its counter replaced. *)
Definition with_active_vcpus (c : Z) (p : p2m_domain) : p2m_domain :=
  mk_p2m (p2m_class p) c.

(** The indices [lo <= i < lo + n] whose slot is occupied, in increasing
    order. *)
Definition occupied_range (d : domain) (lo n : nat) : list nat :=
  filter (fun i => is_Some (slot d i)) (seq lo n).

Definition occupied_below (d : domain) (n : nat) : list nat :=
  occupied_range d 0 n.

(** What [altp2m_flush] and [altp2m_destroy_by_id] do to the view of slot
    [i], and what [altp2m_teardown] does to it. *)
Definition flush_events (i : nat) : list event :=
  [EvTeardownOne i; EvXfree i; EvStoreNull i].

Definition teardown_events (i : nat) : list event :=
  [EvTeardownOne i; EvXfree i].

(** The position of the first occurrence of an event in a log. *)
Fixpoint index_of (e : event) (log : list event) : option nat :=
  match log with
  | [] => None
  | x :: rest =>
      if decide (x = e) then Some 0%nat
      else option_map S (index_of e rest)
  end.

(** Both events occur in the log, [a] first. *)
Definition precedes (a b : event) (log : list event) : bool :=
  match index_of a log, index_of b log with
  | Some i, Some j => bool_decide (i < j)%nat
  | _, _ => false
  end.

(** The order of the steps on the view of slot [i] that the specification
    gives for every teardown path: the slot is cleared, then the view is
    torn down, then its memory is released. *)
Definition spec_teardown_order (log : list event) (i : nat) : bool :=
  precedes (EvStoreNull i) (EvTeardownOne i) log &&
  precedes (EvTeardownOne i) (EvXfree i) log.

(** The log contains the block of events [block], uninterrupted. *)
Definition has_block (block : list event) (log : list event) : Prop :=
  exists before after, log = before ++ block ++ after.

Definition is_fault {A} (o : outcome A) : Prop :=
  match o with Fault _ => True | Done _ _ _ => False end.

Arguments slot : simpl never.


(** ** Concrete configurations used to exercise the operations *)

(** The values the macros have in Xen's headers. *)
Definition xen_MAX_ALTP2M : nat := 10.
Definition xen_INVALID_ALTP2M : nat := Z.to_nat 65535.

Definition view (n : Z) : option p2m_domain := Some (mk_p2m p2m_alternate n).

(** Two vcpus bound to view 0; views 0 and 1 exist. *)
Definition dom_two_views : domain :=
  mk_domain
    [view 2; view 0; None; None; None; None; None; None; None; None]
    true
    [mk_vcpu 0; mk_vcpu 0].

(** [dom_two_views] after both vcpus were switched to view 1. *)
Definition dom_switched : domain :=
  mk_domain
    [view 0; view 2; None; None; None; None; None; None; None; None]
    true
    [mk_vcpu 1; mk_vcpu 1].

(** As [dom_two_views], with the second vcpu not bound to any view. *)
Definition dom_one_unbound : domain :=
  mk_domain
    [view 1; view 0; None; None; None; None; None; None; None; None]
    true
    [mk_vcpu 0; mk_vcpu xen_INVALID_ALTP2M].

(** All ten slots occupied. *)
Definition dom_full : domain :=
  mk_domain
    [view 2; view 0; view 0; view 0; view 0; view 0; view 0; view 0; view 0;
     view 0]
    true
    [mk_vcpu 0; mk_vcpu 0].

(** Views 0 and 2 exist, nothing is bound, altp2m is inactive. *)
Definition dom_inactive : domain :=
  mk_domain
    [view 0; None; view 0; None; None; None; None; None; None; None]
    false
    [mk_vcpu xen_INVALID_ALTP2M; mk_vcpu xen_INVALID_ALTP2M].

(** A vcpu bound to a view: its index is valid and the slot is occupied. *)
Definition bound_to_view (MAX_ALTP2M INVALID_ALTP2M : nat) (d : domain)
    (v : vcpu) : Prop :=
  ap2m_idx v <> INVALID_ALTP2M /\ (ap2m_idx v < MAX_ALTP2M)%nat /\
  is_Some (slot d (ap2m_idx v)).

(** The calls [altp2m_vcpu_destroy] makes around its work on vcpu [v]. *)
Definition pause_log (current : option nat) (v : nat) : list event :=
  if bool_decide (Some v <> current) then [EvVcpuPause v; EvVcpuUnpause v]
  else [].

(** The slots for which a log records a successful allocation, and those
    for which it records a free. *)
Definition allocated (log : list event) : list nat :=
  omap (fun e => match e with EvXzalloc i true => Some i | _ => None end) log.

Definition freed (log : list event) : list nat :=
  omap (fun e => match e with EvXfree i => Some i | _ => None end) log.

(** A fresh view as [altp2m_init_helper] installs it. *)
Definition fresh_view : p2m_domain := mk_p2m p2m_alternate 0.

Definition env_ok : env := mk_env true 0.
Definition env_no_memory : env := mk_env false 0.
Definition env_init_fails : env := mk_env true (- ENOMEM).

(** The log of a run that completed, and whether it completed. *)
Definition log_of {A} (o : outcome A) : list event :=
  match o with Done _ _ l => l | Fault _ => [] end.

Definition completes {A} (o : outcome A) : bool :=
  match o with Done _ _ _ => true | Fault _ => false end.

(** ** Consistent domains and sequences of calls *)

(** A domain in which the table has [MAX_ALTP2M] entries, the number of
    vcpus fits the counter type, every vcpu is unbound or bound to an
    occupied slot, and I2 holds. *)
Definition consistent (MAX_ALTP2M INVALID_ALTP2M : nat) (d : domain) : Prop :=
  length (altp2m_p2m d) = MAX_ALTP2M /\
  Z.of_nat (length (vcpus d)) <= INT_MAX /\
  (forall v, v ∈ vcpus d ->
     ap2m_idx v = INVALID_ALTP2M \/ is_Some (slot d (ap2m_idx v))) /\
  I2 d.

(** The entry points of altp2m.c with their arguments. *)
Inductive call : Type :=
| Call_init
| Call_init_by_id (e : env) (idx : nat)
| Call_init_next_available (e : env)
| Call_vcpu_initialize (v : nat)
| Call_vcpu_destroy (current : option nat) (v : nat)
| Call_switch_domain_altp2m_by_id (idx : nat)
| Call_destroy_by_id (idx : nat)
| Call_flush
| Call_teardown.

Definition run_call (MAX_ALTP2M INVALID_ALTP2M : nat) (c : call) : M unit :=
  match c with
  | Call_init => let* _ := altp2m_init in ret tt
  | Call_init_by_id e idx =>
      let* _ := altp2m_init_by_id MAX_ALTP2M e idx in ret tt
  | Call_init_next_available e =>
      let* _ := altp2m_init_next_available MAX_ALTP2M e in ret tt
  | Call_vcpu_initialize v =>
      altp2m_vcpu_initialize MAX_ALTP2M INVALID_ALTP2M v
  | Call_vcpu_destroy current v =>
      altp2m_vcpu_destroy MAX_ALTP2M INVALID_ALTP2M current v
  | Call_switch_domain_altp2m_by_id idx =>
      let* _ := altp2m_switch_domain_altp2m_by_id MAX_ALTP2M INVALID_ALTP2M idx
      in ret tt
  | Call_destroy_by_id idx =>
      let* _ := altp2m_destroy_by_id MAX_ALTP2M idx in ret tt
  | Call_flush => altp2m_flush MAX_ALTP2M
  | Call_teardown => altp2m_teardown MAX_ALTP2M
  end.



(** Whether the slot stores of a log all happen while the altp2m lock is
    held and the lock is taken and released alternately; [held] tells
    whether the lock is held before the log starts, and the lock must be
    free when it ends. *)
Fixpoint lock_discipline (held : bool) (log : list event) : bool :=
  match log with
  | [] => negb held
  | EvLock :: rest => negb held && lock_discipline true rest
  | EvUnlock :: rest => held && lock_discipline false rest
  | EvStoreView _ :: rest | EvStoreNull _ :: rest =>
      held && lock_discipline held rest
  | _ :: rest => lock_discipline held rest
  end.

(** A domain as [altp2m_init] and domain creation leave it: an empty
    table of ten slots and two unbound vcpus. *)
Definition dom_created : domain :=
  mk_domain
    [None; None; None; None; None; None; None; None; None; None]
    false
    [mk_vcpu xen_INVALID_ALTP2M; mk_vcpu xen_INVALID_ALTP2M].
(** ** Proof support *)

Ltac mstep :=
  cbv beta iota delta
    [bind ret emit get put fail BUG_ON ASSERT read_slot read_ap2m_idx
     write_ap2m_idx store_view store_null update_active_vcpus
     read_active_vcpus] in *.

Ltac mhyps :=
  repeat match goal with
  | H : slot ?d ?i = _ |- context [slot ?d ?i] => rewrite H
  | H : vcpus ?d !! ?i = _ |- context [vcpus ?d !! ?i] => rewrite H
  end.

Ltac mrun := repeat (progress (mstep; simpl; mhyps)).

Lemma wrap_int_id z : - 2 ^ 31 <= z <= INT_MAX -> wrap_int z = z.
Proof.
  unfold wrap_int, INT_MAX. intros H.
  rewrite Z.mod_small by lia. lia.
Qed.

Lemma wrap_int_add a b : wrap_int (wrap_int a + b) = wrap_int (a + b).
Proof.
  unfold wrap_int.
  replace ((a + 2 ^ 31) mod 2 ^ 32 - 2 ^ 31 + b + 2 ^ 31)
    with ((a + 2 ^ 31) mod 2 ^ 32 + b) by lia.
  rewrite Zplus_mod_idemp_l. f_equal. f_equal. lia.
Qed.

Lemma slot_set_slots d s i :
  slot (set_slots d s) i = match s !! i with Some e => e | None => None end.
Proof. reflexivity. Qed.

Lemma slot_set_vcpus d vs i : slot (set_vcpus d vs) i = slot d i.
Proof. reflexivity. Qed.

Lemma slot_insert_eq d i x :
  is_Some (slot d i) -> slot (set_slots d (<[i := x]> (altp2m_p2m d))) i = x.
Proof.
  unfold slot at 1. intros [p Hp]. rewrite slot_set_slots.
  destruct (altp2m_p2m d !! i) as [e|] eqn:He; [|discriminate].
  apply lookup_lt_Some in He. by rewrite list_lookup_insert_eq.
Qed.

Lemma slot_insert_ne d i j x :
  i <> j -> slot (set_slots d (<[i := x]> (altp2m_p2m d))) j = slot d j.
Proof.
  intros Hne. rewrite slot_set_slots. unfold slot.
  by rewrite list_lookup_insert_ne.
Qed.

Lemma slot_insert d i j x :
  slot (set_slots d (<[i := x]> (altp2m_p2m d))) j =
  if decide (i = j /\ (i < length (altp2m_p2m d))%nat) then x else slot d j.
Proof.
  rewrite slot_set_slots. unfold slot.
  destruct (decide (i = j)) as [->|Hne].
  - destruct (decide (j < length (altp2m_p2m d))%nat) as [Hlt|Hge].
    + rewrite list_lookup_insert_eq by done. by rewrite decide_True.
    + rewrite list_insert_ge by lia. rewrite decide_False by tauto. done.
  - rewrite list_lookup_insert_ne by done. by rewrite decide_False by tauto.
Qed.

Lemma slot_Some_lt d i p : slot d i = Some p -> (i < length (altp2m_p2m d))%nat.
Proof.
  unfold slot. destruct (altp2m_p2m d !! i) eqn:He; [|discriminate].
  intros _. by apply lookup_lt_Some in He.
Qed.

Section Switch.
Variables MAX_ALTP2M INVALID_ALTP2M : nat.

Lemma switch_vcpu_run k s d v :
  vcpus d !! s = Some v ->
  switch_vcpu MAX_ALTP2M INVALID_ALTP2M k s d =
    if decide (ap2m_idx v = k) then Done tt d []
    else if decide (ap2m_idx v = INVALID_ALTP2M) then Fault NULL_DEREF
    else if decide (MAX_ALTP2M <= ap2m_idx v)%nat then Fault BUG
    else
      match slot d (ap2m_idx v) with
      | None => Fault NULL_DEREF
      | Some pj =>
          if decide (k = INVALID_ALTP2M) then Fault NULL_DEREF
          else if decide (MAX_ALTP2M <= k)%nat then Fault BUG
          else
            match slot d k with
            | None => Fault NULL_DEREF
            | Some pk =>
                Done tt
                  (mk_domain
                     (<[k := Some (with_active_vcpus (atomic_inc (active_vcpus pk)) pk)]>
                        (<[ap2m_idx v :=
                             Some (with_active_vcpus (atomic_dec (active_vcpus pj)) pj)]>
                           (altp2m_p2m d)))
                     (altp2m_active d)
                     (<[s := mk_vcpu k]> (vcpus d)))
                  []
            end
      end.
Proof.
  intros Hv. unfold switch_vcpu, altp2m_get_altp2m. mrun.
  destruct (decide (ap2m_idx v = k)) as [Hk|Hk].
  { rewrite bool_decide_eq_true_2 by done. done. }
  rewrite bool_decide_eq_false_2 by done. mrun.
  destruct (decide (ap2m_idx v = INVALID_ALTP2M)) as [Hi|Hi].
  { rewrite bool_decide_eq_true_2 by done. done. }
  rewrite bool_decide_eq_false_2 by done. mrun.
  destruct (decide (MAX_ALTP2M <= ap2m_idx v)%nat) as [Hm|Hm].
  { rewrite bool_decide_eq_true_2 by done. done. }
  rewrite bool_decide_eq_false_2 by done. mrun.
  destruct (slot d (ap2m_idx v)) as [pj|] eqn:Hj; mrun; [|done].
  rewrite list_lookup_insert_eq by (by eapply lookup_lt_Some). mrun.
  destruct (decide (k = INVALID_ALTP2M)) as [Hki|Hki].
  { rewrite bool_decide_eq_true_2 by done. done. }
  rewrite bool_decide_eq_false_2 by done. mrun.
  destruct (decide (MAX_ALTP2M <= k)%nat) as [Hkm|Hkm].
  { rewrite bool_decide_eq_true_2 by done. done. }
  rewrite bool_decide_eq_false_2 by done. mrun.
  rewrite slot_set_vcpus, slot_insert_ne by done.
  destruct (slot d k) as [pk|] eqn:Hpk; mrun; [|done].
  rewrite slot_set_vcpus, slot_insert_ne, Hpk by done. done.
Qed.

Lemma for_range_S lo n body d :
  for_range lo (S n) body d =
  match body lo d with
  | Done _ d1 l1 =>
      match for_range (S lo) n body d1 with
      | Done b d2 l2 => Done b d2 (l1 ++ l2)
      | Fault f => Fault f
      end
  | Fault f => Fault f
  end.
Proof. reflexivity. Qed.

Lemma drop_cons_lookup {A} (l : list A) s x xs :
  drop s l = x :: xs -> l !! s = Some x /\ drop (S s) l = xs /\
  take (S s) l = take s l ++ [x].
Proof.
  intros H. assert (Hx : l !! s = Some x).
  { pose proof (lookup_drop l s 0) as E. rewrite H, Nat.add_0_r in E. done. }
  split; [done|]. split.
  - rewrite (drop_S _ _ _ Hx) in H. by injection H.
  - by apply take_S_r.
Qed.

Lemma rebindable_occupancy d d1 k v :
  (forall i, is_Some (slot d1 i) <-> is_Some (slot d i)) ->
  rebindable MAX_ALTP2M INVALID_ALTP2M d1 k v <->
  rebindable MAX_ALTP2M INVALID_ALTP2M d k v.
Proof. intros H. unfold rebindable. rewrite H. tauto. Qed.

Lemma switch_loop_done k vs : forall s d d' log,
  drop s (vcpus d) = vs ->
  for_range s (length vs) (switch_vcpu MAX_ALTP2M INVALID_ALTP2M k) d
    = Done tt d' log ->
  log = [] /\
  altp2m_active d' = altp2m_active d /\
  vcpus d' = take s (vcpus d) ++ map (fun _ => mk_vcpu k) vs /\
  (forall i, slot d' i =
     (fun p => with_active_vcpus (rebind_counter k vs i (active_vcpus p)) p)
       <$> slot d i) /\
  Forall (rebindable MAX_ALTP2M INVALID_ALTP2M d k) vs.
Proof.
  induction vs as [|v vs IH]; intros s d d' log Hdrop Hrun.
  - simpl in Hrun. injection Hrun as <- <-. repeat split; try done.
    + rewrite app_nil_r. symmetry. apply take_ge.
      destruct (decide (length (vcpus d) <= s)%nat); [done|].
      assert (Hl : length (drop s (vcpus d)) = 0%nat) by (by rewrite Hdrop).
      rewrite length_drop in Hl. lia.
    + intros i. simpl. destruct (slot d i) as [[c a]|]; done.
  - apply drop_cons_lookup in Hdrop as (Hv & Hdrop & Htake).
    simpl length in Hrun. rewrite for_range_S in Hrun.
    rewrite (switch_vcpu_run k s d v Hv) in Hrun.
    destruct (decide (ap2m_idx v = k)) as [Hk|Hk].
    { destruct (for_range _ _ _ d) as [[] d2 l2|] eqn:Hrest; [|discriminate].
      injection Hrun as <- <-.
      destruct (IH _ _ _ _ Hdrop Hrest) as (-> & Ha & Hvs & Hsl & Hall).
      repeat split; try done.
      - rewrite Hvs, Htake, <- app_assoc. simpl. destruct v as [j]. simpl in Hk.
        by subst j.
      - intros i. rewrite Hsl. simpl. destruct (slot d i); simpl; [|done].
        case_decide; done.
      - constructor; [by left|done]. }
    destruct (decide (ap2m_idx v = INVALID_ALTP2M)); [discriminate|].
    destruct (decide (MAX_ALTP2M <= ap2m_idx v)%nat); [discriminate|].
    destruct (slot d (ap2m_idx v)) as [pj|] eqn:Hj; [|discriminate].
    destruct (decide (k = INVALID_ALTP2M)); [discriminate|].
    destruct (decide (MAX_ALTP2M <= k)%nat); [discriminate|].
    destruct (slot d k) as [pk|] eqn:Hpk; [|discriminate].
    match type of Hrun with
    | match for_range _ _ _ ?d1 with _ => _ end = _ =>
        remember d1 as d1' eqn:Hd1
    end.
    assert (Hvcpus1 : vcpus d1' = <[s := mk_vcpu k]> (vcpus d)) by (by subst d1').
    assert (Hact1 : altp2m_active d1' = altp2m_active d) by (by subst d1').
    destruct (for_range _ _ _ d1') as [[] d2 l2|] eqn:Hrest; [|discriminate].
    injection Hrun as <- <-.
    assert (Hdrop1 : drop (S s) (vcpus d1') = vs).
    { rewrite Hvcpus1, drop_insert_lt by lia. done. }
    assert (Hslot1 : forall i, slot d1' i =
      (fun p => with_active_vcpus
         (if decide (i = ap2m_idx v) then atomic_dec (active_vcpus p)
          else if decide (i = k) then atomic_inc (active_vcpus p)
          else active_vcpus p) p) <$> slot d i).
    { intros i. subst d1'. unfold slot at 1. simpl.
      destruct (decide (i = k)) as [->|Hik].
      - rewrite list_lookup_insert_eq.
        + rewrite Hpk. simpl. repeat case_decide; done.
        + rewrite length_insert. by eapply slot_Some_lt.
      - rewrite list_lookup_insert_ne by done.
        destruct (decide (i = ap2m_idx v)) as [->|Hij].
        + rewrite list_lookup_insert_eq by (by eapply slot_Some_lt).
          rewrite Hj. simpl. repeat case_decide; done.
        + rewrite list_lookup_insert_ne by done. fold (slot d i).
          destruct (slot d i) as [[c a]|]; simpl; [|done].
          repeat case_decide; done. }
    clear Hd1.
    destruct (IH _ _ _ _ Hdrop1 Hrest) as (-> & Ha & Hvs & Hsl & Hall).
    split; [done|]. split; [congruence|]. split; [|split].
    + rewrite Hvs, Hvcpus1. simpl.
      rewrite take_insert_lt by lia. rewrite Htake.
      assert (Hlen : length (take s (vcpus d)) = s).
      { rewrite length_take. apply lookup_lt_Some in Hv. lia. }
      rewrite insert_app_r_alt by lia. rewrite Hlen, Nat.sub_diag. simpl.
      by rewrite <- app_assoc.
    + intros i. rewrite Hsl, Hslot1. destruct (slot d i) as [p|]; [|done].
      simpl. unfold with_active_vcpus. simpl. f_equal. f_equal.
      repeat case_decide; try done; congruence.
    + constructor.
      * right. split; [done|]. split; [lia|by eexists].
      * eapply List.Forall_impl; [|exact Hall]. intros w Hw.
        eapply rebindable_occupancy; [|exact Hw].
        intros i. symmetry. rewrite Hslot1. destruct (slot d i); simpl; split; intros [? ?]; try done; by eexists.
Qed.

Lemma switch_loop_total k vs : forall s d,
  drop s (vcpus d) = vs ->
  k <> INVALID_ALTP2M -> (k < MAX_ALTP2M)%nat -> is_Some (slot d k) ->
  Forall (rebindable MAX_ALTP2M INVALID_ALTP2M d k) vs ->
  exists d',
    for_range s (length vs) (switch_vcpu MAX_ALTP2M INVALID_ALTP2M k) d
      = Done tt d' [].
Proof.
  induction vs as [|v vs IH]; intros s d Hdrop Hki Hkm [pk Hpk] Hall.
  - by eexists.
  - apply drop_cons_lookup in Hdrop as (Hv & Hdrop & Htake).
    pose proof (List.Forall_inv Hall) as Hreb.
    pose proof (List.Forall_inv_tail Hall) as Hall'.
    simpl length. rewrite for_range_S, (switch_vcpu_run k s d v Hv).
    destruct (decide (ap2m_idx v = k)) as [Hk|Hk].
    { destruct (IH (S s) d Hdrop Hki Hkm (ex_intro _ pk Hpk) Hall') as [d' Hd'].
      rewrite Hd'. by eexists. }
    destruct Hreb as [?|(Hi & Hm & [pj Hj])]; [done|].
    rewrite decide_False by done. rewrite decide_False by lia.
    rewrite Hj. rewrite decide_False by done. rewrite decide_False by lia.
    rewrite Hpk.
    match goal with
    | |- context [for_range _ _ _ ?d1] => remember d1 as d1' eqn:Hd1
    end.
    assert (Hocc : forall i, is_Some (slot d1' i) <-> is_Some (slot d i)).
    { intros i. subst d1'. unfold slot at 1. simpl.
      destruct (decide (i = k)) as [->|Hik].
      - rewrite list_lookup_insert_eq.
        + rewrite Hpk. split; intros _; by eexists.
        + rewrite length_insert. by eapply slot_Some_lt.
      - rewrite list_lookup_insert_ne by done.
        destruct (decide (i = ap2m_idx v)) as [->|Hij].
        + rewrite list_lookup_insert_eq by (by eapply slot_Some_lt).
          rewrite Hj. split; intros _; by eexists.
        + rewrite list_lookup_insert_ne by done. done. }
    destruct (IH (S s) d1') as [d' Hd'].
    + subst d1'. simpl. by rewrite drop_insert_lt by lia.
    + done.
    + done.
    + apply Hocc. by eexists.
    + eapply List.Forall_impl; [|exact Hall']. intros w Hw.
      by eapply rebindable_occupancy.
    + rewrite Hd'. by eexists.
Qed.

End Switch.

Lemma bound_count_cons i v vs :
  bound_count i (v :: vs) =
  ((if decide (ap2m_idx v = i) then 1 else 0) + bound_count i vs)%nat.
Proof.
  unfold bound_count. rewrite filter_cons. by case_decide.
Qed.

Lemma bound_count_le i vs : (bound_count i vs <= length vs)%nat.
Proof. apply length_filter. Qed.

Lemma bound_count_all k (vs : list vcpu) :
  bound_count k (map (fun _ => mk_vcpu k) vs) = length vs.
Proof.
  induction vs as [|v vs IH]; [done|].
  simpl map. rewrite bound_count_cons, IH. simpl. by rewrite decide_True.
Qed.

Lemma bound_count_none i k (vs : list vcpu) :
  i <> k -> bound_count i (map (fun _ => mk_vcpu k) vs) = 0%nat.
Proof.
  intros Hne. induction vs as [|v vs IH]; [done|].
  simpl map. rewrite bound_count_cons, IH. simpl. by rewrite decide_False.
Qed.

Lemma rebind_delta_other k vs i :
  i <> k -> rebind_delta k vs i = - Z.of_nat (bound_count i vs).
Proof.
  intros Hne. induction vs as [|v vs IH]; [done|].
  simpl. rewrite bound_count_cons, IH.
  repeat case_decide; try congruence; lia.
Qed.

Lemma rebind_delta_target k vs :
  rebind_delta k vs k = Z.of_nat (length vs) - Z.of_nat (bound_count k vs).
Proof.
  induction vs as [|v vs IH]; [done|].
  simpl rebind_delta. rewrite bound_count_cons, IH. simpl length.
  repeat case_decide; try congruence; lia.
Qed.

Lemma wrap_int_range z : - 2 ^ 31 <= wrap_int z <= INT_MAX.
Proof.
  unfold wrap_int, INT_MAX.
  pose proof (Z.mod_pos_bound (z + 2 ^ 31) (2 ^ 32)). lia.
Qed.

Lemma rebind_counter_wrap k vs i : forall c,
  - 2 ^ 31 <= c <= INT_MAX ->
  rebind_counter k vs i c = wrap_int (c + rebind_delta k vs i).
Proof.
  induction vs as [|v vs IH]; intros c Hc.
  - simpl. rewrite Z.add_0_r. symmetry. by apply wrap_int_id.
  - simpl. unfold atomic_dec, atomic_inc.
    repeat case_decide; subst; try congruence;
      rewrite IH by (try apply wrap_int_range; done);
      rewrite ?wrap_int_add; f_equal; lia.
Qed.

Lemma switch_domain_run MAX_ALTP2M INVALID_ALTP2M k d :
  altp2m_switch_domain_altp2m_by_id MAX_ALTP2M INVALID_ALTP2M k d =
  if decide (MAX_ALTP2M <= k)%nat then Done (- EINVAL) d []
  else
    match slot d k with
    | None =>
        Done (- EINVAL) d
          [EvDomainPauseExceptSelf; EvLock; EvUnlock; EvDomainUnpauseExceptSelf]
    | Some _ =>
        match for_range 0 (length (vcpus d))
                (switch_vcpu MAX_ALTP2M INVALID_ALTP2M k) d with
        | Done _ d' l =>
            Done 0 d'
              (EvDomainPauseExceptSelf :: EvLock :: l
               ++ [EvUnlock; EvDomainUnpauseExceptSelf])
        | Fault f => Fault f
        end
    end.
Proof.
  unfold altp2m_switch_domain_altp2m_by_id, for_each_vcpu.
  destruct (decide (MAX_ALTP2M <= k)%nat).
  { by rewrite bool_decide_eq_true_2. }
  rewrite bool_decide_eq_false_2 by done. mrun.
  destruct (slot d k); mrun; [|done].
  destruct (for_range _ _ _ d) as [[] d' l|]; mrun; [|done].
  by rewrite app_nil_r.
Qed.

Lemma vcpu_destroy_run MAX_ALTP2M INVALID_ALTP2M current n d v :
  vcpus d !! n = Some v ->
  altp2m_vcpu_destroy MAX_ALTP2M INVALID_ALTP2M current n d =
  let unbound := <[n := mk_vcpu INVALID_ALTP2M]> (vcpus d) in
  if decide (ap2m_idx v = INVALID_ALTP2M) then
    Done tt (set_vcpus d unbound) (pause_log current n)
  else if decide (MAX_ALTP2M <= ap2m_idx v)%nat then Fault BUG
  else
    match slot d (ap2m_idx v) with
    | Some p =>
        Done tt
          (set_vcpus
             (set_slots d
                (<[ap2m_idx v :=
                     Some (with_active_vcpus (atomic_dec (active_vcpus p)) p)]>
                   (altp2m_p2m d)))
             unbound)
          (pause_log current n)
    | None => Done tt (set_vcpus d unbound) (pause_log current n)
    end.
Proof.
  intros Hv. unfold altp2m_vcpu_destroy, altp2m_vcpu_reset, altp2m_get_altp2m,
    pause_log.
  destruct (bool_decide (Some n <> current)); mrun.
  all: destruct (decide (ap2m_idx v = INVALID_ALTP2M)) as [Hi|Hi];
    [rewrite bool_decide_eq_true_2 by done; by mrun|
     rewrite bool_decide_eq_false_2 by done; mrun].
  all: destruct (decide (MAX_ALTP2M <= ap2m_idx v)%nat) as [Hm|Hm];
    [rewrite bool_decide_eq_true_2 by done; by mrun|
     rewrite bool_decide_eq_false_2 by done; mrun].
  all: destruct (slot d (ap2m_idx v)) as [p|] eqn:Hp; mrun; done.
Qed.

Lemma destroy_by_id_run MAX_ALTP2M idx d :
  altp2m_destroy_by_id MAX_ALTP2M idx d =
  if decide (idx = 0%nat \/ (MAX_ALTP2M <= idx)%nat) then Done (- EBUSY) d []
  else
    match slot d idx with
    | Some p =>
        if decide (active_vcpus p = 0) then
          Done 0 (set_slots d (<[idx := None]> (altp2m_p2m d)))
            [EvDomainPauseExceptSelf; EvLock; EvTeardownOne idx; EvXfree idx;
             EvStoreNull idx; EvUnlock; EvDomainUnpauseExceptSelf]
        else
          Done (- EBUSY) d
            [EvDomainPauseExceptSelf; EvLock; EvUnlock;
             EvDomainUnpauseExceptSelf]
    | None =>
        Done (- EBUSY) d
          [EvDomainPauseExceptSelf; EvLock; EvUnlock;
           EvDomainUnpauseExceptSelf]
    end.
Proof.
  unfold altp2m_destroy_by_id.
  destruct (decide (idx = 0%nat \/ (MAX_ALTP2M <= idx)%nat)) as [[H|H]|H].
  - by rewrite (bool_decide_eq_true_2 _ H).
  - rewrite (bool_decide_eq_true_2 (MAX_ALTP2M <= idx)%nat H).
    by rewrite orb_true_r.
  - rewrite !bool_decide_eq_false_2 by tauto. mrun.
    destruct (slot d idx) as [p|] eqn:Hp; mrun; [|done].
    destruct (decide (active_vcpus p = 0)) as [Hz|Hz].
    + rewrite bool_decide_eq_true_2 by done. by mrun.
    + rewrite bool_decide_eq_false_2 by done. by mrun.
Qed.

Lemma bound_count_pos k v vs :
  v ∈ vs -> ap2m_idx v = k -> (0 < bound_count k vs)%nat.
Proof.
  intros Hin Hk. unfold bound_count.
  assert (Hf : v ∈ filter (fun v => ap2m_idx v = k) vs)
    by (by apply list_elem_of_filter).
  destruct (filter _ vs); [by apply elem_of_nil in Hf|simpl; lia].
Qed.

Lemma store_null_empty d idx :
  slot d idx = None -> set_slots d (<[idx := None]> (altp2m_p2m d)) = d.
Proof.
  intros H. destruct d as [s a vs]. unfold set_slots, slot in *. simpl in *.
  f_equal. apply list_insert_id'. intros Hlt.
  destruct (s !! idx) as [e|] eqn:E; [by subst e|].
  apply lookup_ge_None in E. lia.
Qed.

Lemma init_helper_run e idx d :
  altp2m_init_helper e idx d =
  match slot d idx with
  | Some _ => Fault ASSERT_FAILED
  | None =>
      if xzalloc_ok e then
        if decide (p2m_init_one_rc e = 0) then
          Done 0 (set_slots d (<[idx := Some fresh_view]> (altp2m_p2m d)))
            [EvXzalloc idx true; EvInitOne idx 0; EvStoreView idx]
        else
          Done (p2m_init_one_rc e) d
            [EvXzalloc idx true; EvInitOne idx (p2m_init_one_rc e);
             EvXfree idx; EvStoreNull idx]
      else Done (- ENOMEM) d [EvXzalloc idx false]
  end.
Proof.
  unfold altp2m_init_helper. mrun.
  destruct (slot d idx) as [p|] eqn:Hp; mrun; [done|].
  destruct (xzalloc_ok e); mrun; [|done].
  destruct (decide (p2m_init_one_rc e = 0)) as [Hz|Hz].
  - rewrite bool_decide_eq_false_2 by (intros H; by apply H). mrun.
    by rewrite Hz.
  - rewrite bool_decide_eq_true_2 by done. mrun.
    by rewrite store_null_empty.
Qed.

Lemma init_by_id_run MAX_ALTP2M e idx d :
  altp2m_init_by_id MAX_ALTP2M e idx d =
  if decide (MAX_ALTP2M <= idx)%nat then Done (- EINVAL) d []
  else
    match slot d idx with
    | Some _ => Done (- EINVAL) d [EvLock; EvUnlock]
    | None =>
        match altp2m_init_helper e idx d with
        | Done rc d' l => Done rc d' (EvLock :: l ++ [EvUnlock])
        | Fault f => Fault f
        end
    end.
Proof.
  unfold altp2m_init_by_id.
  destruct (decide (MAX_ALTP2M <= idx)%nat).
  { by rewrite bool_decide_eq_true_2. }
  rewrite bool_decide_eq_false_2 by done. mrun.
  destruct (slot d idx) as [p|] eqn:Hp; mrun; [done|].
  destruct (altp2m_init_helper e idx d); by mrun.
Qed.

Lemma init_next_scan_full e n : forall i d,
  (forall j, (i <= j < i + n)%nat -> is_Some (slot d j)) ->
  init_next_scan e i n d = Done (- EINVAL, None) d [].
Proof.
  induction n as [|n IH]; intros i d Hfull; [done|].
  simpl. mrun. destruct (Hfull i ltac:(lia)) as [p Hp]. rewrite Hp.
  rewrite IH; [done|]. intros j Hj. apply Hfull. lia.
Qed.

Lemma init_next_scan_free e n : forall i d j,
  (i <= j < i + n)%nat ->
  slot d j = None ->
  (forall j', (i <= j' < j)%nat -> is_Some (slot d j')) ->
  init_next_scan e i n d =
  match altp2m_init_helper e j d with
  | Done rc d' l => Done (rc, Some j) d' l
  | Fault f => Fault f
  end.
Proof.
  induction n as [|n IH]; intros i d j Hj Hfree Hbelow; [lia|].
  simpl. mrun. destruct (decide (i = j)) as [->|Hne].
  - rewrite Hfree. destruct (altp2m_init_helper e j d); [|done].
    by rewrite app_nil_r.
  - destruct (Hbelow i ltac:(lia)) as [p Hp]. rewrite Hp.
    rewrite (IH (S i) d j); [|lia|done|intros; apply Hbelow; lia].
    by destruct (altp2m_init_helper e j d).
Qed.

Lemma init_next_available_run MAX_ALTP2M e d :
  altp2m_init_next_available MAX_ALTP2M e d =
  match init_next_scan e 0 MAX_ALTP2M d with
  | Done r d' l => Done r d' (EvLock :: l ++ [EvUnlock])
  | Fault f => Fault f
  end.
Proof.
  unfold altp2m_init_next_available. mrun.
  destruct (init_next_scan e 0 MAX_ALTP2M d); by mrun.
Qed.

Lemma occupied_range_S d lo n :
  occupied_range d lo (S n) =
  if decide (is_Some (slot d lo)) then lo :: occupied_range d (S lo) n
  else occupied_range d (S lo) n.
Proof. unfold occupied_range. simpl seq. by rewrite filter_cons. Qed.

Lemma occupied_range_S_Some d lo n p :
  slot d lo = Some p ->
  occupied_range d lo (S n) = lo :: occupied_range d (S lo) n.
Proof.
  intros Hp. rewrite occupied_range_S.
  destruct (decide (is_Some (slot d lo))) as [|H]; [done|].
  destruct H. by eexists.
Qed.

Lemma occupied_range_S_None d lo n :
  slot d lo = None ->
  occupied_range d lo (S n) = occupied_range d (S lo) n.
Proof.
  intros Hp. rewrite occupied_range_S.
  destruct (decide (is_Some (slot d lo))) as [[? H]|]; [congruence|done].
Qed.

Lemma occupied_range_ext d1 d n : forall lo,
  (forall i, (lo <= i)%nat -> is_Some (slot d1 i) <-> is_Some (slot d i)) ->
  occupied_range d1 lo n = occupied_range d lo n.
Proof.
  induction n as [|n IH]; intros lo Hext; [done|].
  rewrite !occupied_range_S, (IH (S lo)) by (intros; apply Hext; lia).
  destruct (decide (is_Some (slot d1 lo))) as [H1|H1];
    destruct (decide (is_Some (slot d lo))) as [H|H]; try done.
  - apply Hext in H1; [done|lia].
  - apply Hext in H; [done|lia].
Qed.

Lemma elem_of_occupied_range d lo n i :
  i ∈ occupied_range d lo n <-> (lo <= i < lo + n)%nat /\ is_Some (slot d i).
Proof.
  unfold occupied_range. rewrite list_elem_of_filter, elem_of_seq. tauto.
Qed.

Lemma flush_slot_run i d :
  flush_slot i d =
  match slot d i with
  | None => Done tt d []
  | Some p =>
      if decide (active_vcpus p = 0) then
        Done tt (set_slots d (<[i := None]> (altp2m_p2m d))) (flush_events i)
      else Fault ASSERT_FAILED
  end.
Proof.
  unfold flush_slot. mrun. destruct (slot d i) as [p|] eqn:Hp; mrun; [|done].
  destruct (decide (active_vcpus p = 0)).
  - rewrite bool_decide_eq_true_2 by done. by mrun.
  - rewrite bool_decide_eq_false_2 by done. by mrun.
Qed.

Lemma teardown_slot_run i d :
  teardown_slot i d =
  match slot d i with
  | None => Done tt d []
  | Some p => Done tt d (teardown_events i)
  end.
Proof.
  unfold teardown_slot. mrun. by destruct (slot d i) as [p|] eqn:Hp; mrun.
Qed.

(** The flush loop either clears the whole range, or stops at a view that
    still has vcpus. *)
Lemma flush_loop_outcome n : forall lo d,
  (exists d',
     for_range lo n flush_slot d
       = Done tt d' (flat_map flush_events (occupied_range d lo n)) /\
     altp2m_active d' = altp2m_active d /\
     vcpus d' = vcpus d /\
     (forall i, slot d' i =
        if decide (lo <= i < lo + n)%nat then None else slot d i) /\
     (forall i p, (lo <= i < lo + n)%nat -> slot d i = Some p ->
        active_vcpus p = 0)) \/
  (for_range lo n flush_slot d = Fault ASSERT_FAILED /\
   exists i p, (lo <= i < lo + n)%nat /\ slot d i = Some p /\
     active_vcpus p <> 0).
Proof.
  induction n as [|n IH]; intros lo d.
  - left. exists d. split; [done|]. split; [done|]. split; [done|]. split.
    + intros i. by rewrite decide_False by lia.
    + intros i p Hi. lia.
  - rewrite for_range_S, flush_slot_run.
    destruct (slot d lo) as [p|] eqn:Hp.
    + rewrite (occupied_range_S_Some d lo n p Hp).
      destruct (decide (active_vcpus p = 0)) as [Hz|Hz].
      * remember (set_slots d (<[lo := None]> (altp2m_p2m d))) as d1 eqn:Hd1.
        assert (Hs1 : forall i, slot d1 i = if decide (i = lo) then None
                                            else slot d i).
        { intros i. subst d1. destruct (decide (i = lo)) as [->|Hne].
          - apply slot_insert_eq. by eexists.
          - by apply slot_insert_ne. }
        assert (Hocc : occupied_range d1 (S lo) n = occupied_range d (S lo) n).
        { apply occupied_range_ext. intros i Hi. rewrite Hs1.
          by rewrite decide_False by lia. }
        destruct (IH (S lo) d1)
          as [(d' & Hrun & Ha & Hv & Hs & Hc)|(Hrun & i & q & Hi & Hq & Hnz)].
        -- left. exists d'. rewrite Hrun, Hocc. split; [done|].
           split; [by subst d1|]. split; [by subst d1|]. split.
           ++ intros i. rewrite Hs, Hs1. repeat case_decide; try done; lia.
           ++ intros i q Hi Hq. destruct (decide (i = lo)) as [->|Hne].
              ** congruence.
              ** apply (Hc i q); [lia|]. rewrite Hs1. by rewrite decide_False.
        -- right. rewrite Hrun. split; [done|]. exists i, q.
           split; [lia|]. split; [|done].
           rewrite Hs1 in Hq. by rewrite decide_False in Hq by lia.
      * right. split; [done|]. exists lo, p. split; [lia|done].
    + rewrite (occupied_range_S_None d lo n Hp).
      destruct (IH (S lo) d)
        as [(d' & Hrun & Ha & Hv & Hs & Hc)|(Hrun & i & q & Hi & Hq & Hnz)].
      * left. exists d'. rewrite Hrun. split; [done|].
        split; [done|]. split; [done|]. split.
        -- intros i. rewrite Hs. repeat case_decide; try done; try lia.
           assert (i = lo) by lia. by subst i.
        -- intros i q Hi Hq. destruct (decide (i = lo)) as [->|Hne].
           ++ congruence.
           ++ apply (Hc i q); [lia|done].
      * right. rewrite Hrun. split; [done|]. exists i, q.
        split; [lia|done].
Qed.

Lemma teardown_loop_run n : forall lo d,
  for_range lo n teardown_slot d
  = Done tt d (flat_map teardown_events (occupied_range d lo n)).
Proof.
  induction n as [|n IH]; intros lo d; [done|].
  rewrite for_range_S, teardown_slot_run.
  destruct (slot d lo) as [p|] eqn:Hp.
  - by rewrite IH, (occupied_range_S_Some d lo n p Hp).
  - by rewrite IH, (occupied_range_S_None d lo n Hp).
Qed.

Lemma flush_run MAX_ALTP2M d :
  altp2m_flush MAX_ALTP2M d =
  if altp2m_active d then Fault ASSERT_FAILED
  else
    match for_range 0 MAX_ALTP2M flush_slot d with
    | Done _ d' l => Done tt d' (EvLock :: l ++ [EvUnlock])
    | Fault f => Fault f
    end.
Proof.
  unfold altp2m_flush. mrun. destruct (altp2m_active d); mrun; [done|].
  destruct (for_range 0 MAX_ALTP2M flush_slot d) as [[] d' l|]; by mrun.
Qed.

Lemma has_block_flat_map (f : nat -> list event) (l : list nat) i :
  i ∈ l -> has_block (f i) (flat_map f l).
Proof.
  intros Hin. apply list_elem_of_split in Hin as (l1 & l2 & ->).
  exists (flat_map f l1), (flat_map f l2).
  rewrite flat_map_app. simpl. done.
Qed.

(** What [altp2m_flush] does, by cases on its two assertions. *)
Lemma flush_outcome MAX_ALTP2M d :
  (altp2m_active d = true -> altp2m_flush MAX_ALTP2M d = Fault ASSERT_FAILED) /\
  ((exists i p, (i < MAX_ALTP2M)%nat /\ slot d i = Some p /\
      active_vcpus p <> 0) ->
   altp2m_flush MAX_ALTP2M d = Fault ASSERT_FAILED) /\
  (altp2m_active d = false ->
   (forall i p, (i < MAX_ALTP2M)%nat -> slot d i = Some p ->
      active_vcpus p = 0) ->
   exists d' log, altp2m_flush MAX_ALTP2M d = Done tt d' log) /\
  (forall d' log, altp2m_flush MAX_ALTP2M d = Done tt d' log ->
     altp2m_active d = false /\
     (forall i p, (i < MAX_ALTP2M)%nat -> slot d i = Some p ->
        active_vcpus p = 0) /\
     (forall i, (i < MAX_ALTP2M)%nat -> slot d' i = None) /\
     vcpus d' = vcpus d /\
     altp2m_active d' = altp2m_active d /\
     log = EvLock :: flat_map flush_events (occupied_below d MAX_ALTP2M)
             ++ [EvUnlock] /\
     (forall i, (i < MAX_ALTP2M)%nat -> is_Some (slot d i) ->
        EvTeardownOne i ∈ log /\ EvXfree i ∈ log)).
Proof.
  rewrite flush_run.
  destruct (flush_loop_outcome MAX_ALTP2M 0 d)
    as [(d1 & Hrun & Ha & Hv & Hs & Hc)|(Hrun & i & p & Hi & Hp & Hnz)].
  - rewrite Hrun. split; [|split; [|split]].
    + by intros ->.
    + intros (i & p & Hi & Hp & Hnz). destruct Hnz. apply (Hc i p); [lia|done].
    + intros ->. eauto.
    + intros d' log. destruct (altp2m_active d) eqn:Hact; [done|].
      intros [= <- <-]. split; [done|]. split.
      { intros i p Hi Hp. apply (Hc i p); [lia|done]. }
      split.
      { intros i Hi. rewrite Hs. by rewrite decide_True by lia. }
      split; [done|]. split; [congruence|]. split; [done|].
      intros i Hi Hocc.
      assert (Hin : i ∈ occupied_range d 0 MAX_ALTP2M).
      { apply elem_of_occupied_range. split; [lia|done]. }
      destruct (has_block_flat_map flush_events _ i Hin) as (l1 & l2 & Hlog).
      rewrite Hlog. unfold flush_events. split.
      * apply elem_of_cons. right. rewrite !elem_of_app. left. right. left.
        apply elem_of_cons. by left.
      * apply elem_of_cons. right. rewrite !elem_of_app. left. right. left.
        apply elem_of_cons. right. apply elem_of_cons. by left.
  - rewrite Hrun. split; [|split; [|split]].
    + by intros ->.
    + intros _. by destruct (altp2m_active d).
    + intros -> Hc. destruct Hnz. apply (Hc i p); [lia|done].
    + intros d' log. by destruct (altp2m_active d).
Qed.

(** ** Switching a domain to a view *)

Section SwitchClaims.
Variables MAX_ALTP2M INVALID_ALTP2M : nat.

(** C1. When [altp2m_switch_domain_altp2m_by_id d k] returns 0, every
    vcpu of the domain is bound to [k] and slot occupancy is unchanged;
    the counter of an occupied slot [i <> k] went down by the number of
    vcpus that were bound to [i], the counter of slot [k] went up by the
    number of vcpus that were not bound to [k] (in [int] arithmetic).
    If I2 held before (and the vcpu count fits an [int]) then the counter
    of slot [k] equals the vcpu count, every other occupied slot's counter
    decreased by exactly the number of vcpus moved off it, and I2 holds
    after. *)
Theorem switch_domain_success k d d' log :
  altp2m_switch_domain_altp2m_by_id MAX_ALTP2M INVALID_ALTP2M k d
    = Done 0 d' log ->
  (forall v, v ∈ vcpus d' -> ap2m_idx v = k) /\
  length (vcpus d') = length (vcpus d) /\
  (forall i, is_Some (slot d' i) <-> is_Some (slot d i)) /\
  (forall i p, slot d i = Some p ->
     - 2 ^ 31 <= active_vcpus p <= INT_MAX ->
     exists p', slot d' i = Some p' /\
       active_vcpus p' =
         wrap_int
           (active_vcpus p +
            if decide (i = k)
            then Z.of_nat (length (vcpus d)) - Z.of_nat (bound_count k (vcpus d))
            else - Z.of_nat (bound_count i (vcpus d)))) /\
  (I2 d -> Z.of_nat (length (vcpus d)) <= INT_MAX ->
     (exists pk, slot d' k = Some pk /\
        active_vcpus pk = Z.of_nat (length (vcpus d))) /\
     (forall i p, i <> k -> slot d i = Some p ->
        exists p', slot d' i = Some p' /\
          active_vcpus p' =
            active_vcpus p - Z.of_nat (bound_count i (vcpus d))) /\
     I2 d').
Proof.
  rewrite switch_domain_run. intros Hrun.
  destruct (decide (MAX_ALTP2M <= k)%nat); [discriminate|].
  destruct (slot d k) as [pk|] eqn:Hpk; [|discriminate].
  destruct (for_range _ _ _ d) as [[] d1 l|] eqn:Hloop; [|discriminate].
  injection Hrun as <- <-.
  destruct (switch_loop_done MAX_ALTP2M INVALID_ALTP2M k (vcpus d) 0 d d1 l)
    as (-> & Hact & Hvs & Hsl & Hall); [done|done|].
  simpl in Hvs.
  assert (Hcount : forall i p, slot d i = Some p ->
            - 2 ^ 31 <= active_vcpus p <= INT_MAX ->
            exists p', slot d1 i = Some p' /\
              active_vcpus p' =
                wrap_int
                  (active_vcpus p +
                   if decide (i = k)
                   then Z.of_nat (length (vcpus d))
                        - Z.of_nat (bound_count k (vcpus d))
                   else - Z.of_nat (bound_count i (vcpus d)))).
  { intros i p Hp Hrange. rewrite Hsl, Hp. simpl. eexists. split; [done|].
    simpl. rewrite rebind_counter_wrap by done. f_equal. f_equal.
    case_decide.
    - subst i. apply rebind_delta_target.
    - by apply rebind_delta_other. }
  assert (HI2 : I2 d -> Z.of_nat (length (vcpus d)) <= INT_MAX ->
            forall i p, slot d i = Some p ->
              - 2 ^ 31 <= active_vcpus p <= INT_MAX /\
              active_vcpus p = Z.of_nat (bound_count i (vcpus d))).
  { intros HI Hn i p Hp. rewrite (HI i p Hp).
    pose proof (bound_count_le i (vcpus d)). split; [lia|done]. }
  split; [|split; [|split; [|split]]].
  - intros v. rewrite Hvs. intros Hin. apply list_elem_of_fmap in Hin.
    by destruct Hin as (w & -> & _).
  - by rewrite Hvs, length_map.
  - intros i. rewrite Hsl. destruct (slot d i); simpl; split;
      intros [? ?]; try done; by eexists.
  - exact Hcount.
  - intros HI Hn. specialize (HI2 HI Hn).
    assert (Hwrap : forall i p, slot d i = Some p ->
              exists p', slot d1 i = Some p' /\
                active_vcpus p' =
                  if decide (i = k) then Z.of_nat (length (vcpus d)) else 0).
    { intros i p Hp. destruct (HI2 i p Hp) as [Hr Hc].
      destruct (Hcount i p Hp Hr) as (p' & Hp' & Hc').
      exists p'. split; [done|]. rewrite Hc', Hc.
      pose proof (bound_count_le k (vcpus d)).
      case_decide.
      - subst i. rewrite wrap_int_id; unfold INT_MAX in *; lia.
      - rewrite wrap_int_id; unfold INT_MAX in *; lia. }
    split; [|split].
    + destruct (Hwrap k pk Hpk) as (p' & Hp' & Hc'). exists p'.
      by rewrite decide_True in Hc'.
    + intros i p Hik Hp. destruct (Hwrap i p Hp) as (p' & Hp' & Hc').
      exists p'. split; [done|]. rewrite decide_False in Hc' by done.
      destruct (HI2 i p Hp) as [_ ->]. lia.
    + intros i p' Hp'. destruct (slot d i) as [p|] eqn:Hp.
      * destruct (Hwrap i p Hp) as (p'' & Hp'' & Hc'').
        assert (p'' = p') by congruence. subst p''.
        rewrite Hc'', Hvs. case_decide.
        -- subst i. by rewrite bound_count_all.
        -- by rewrite bound_count_none.
      * rewrite Hsl, Hp in Hp'. discriminate.
Qed.

End SwitchClaims.

(** The switch of [dom_two_views], in which I2 holds, to view 1 succeeds
    and leaves both vcpus on view 1 with I2 intact. *)
Lemma switch_domain_success_witness :
  altp2m_switch_domain_altp2m_by_id xen_MAX_ALTP2M xen_INVALID_ALTP2M 1
    dom_two_views
  = Done 0 dom_switched
      [EvDomainPauseExceptSelf; EvLock; EvUnlock; EvDomainUnpauseExceptSelf]
  /\ I2 dom_two_views
  /\ (forall v, v ∈ vcpus dom_switched -> ap2m_idx v = 1%nat)
  /\ I2 dom_switched.
Proof.
  assert (H : altp2m_switch_domain_altp2m_by_id xen_MAX_ALTP2M
                xen_INVALID_ALTP2M 1 dom_two_views
              = Done 0 dom_switched
                  [EvDomainPauseExceptSelf; EvLock; EvUnlock;
                   EvDomainUnpauseExceptSelf])
    by (vm_compute; reflexivity).
  assert (HI : I2 dom_two_views).
  { intros i p.
    do 10 (destruct i as [|i];
           [vm_compute; intros Hp; try discriminate; by injection Hp as <-|]).
    vm_compute. discriminate. }
  split; [exact H|]. split; [exact HI|].
  destruct (switch_domain_success _ _ _ _ _ _ H) as (H1 & _ & _ & _ & H5).
  split; [exact H1|].
  apply H5; [exact HI|]. vm_compute. discriminate.
Defined.

(** ** Unbinding a vcpu *)

(** C9. For a vcpu whose index is [INVALID_ALTP2M] or below [MAX_ALTP2M],
    [altp2m_vcpu_destroy] completes and leaves the vcpu with index
    [INVALID_ALTP2M] and every other vcpu as it was.  When the vcpu was
    bound (its slot is occupied) exactly that view's counter is
    decremented; when it was unbound the slot table is unchanged.  A
    second call returns the state the first one produced. *)
Theorem vcpu_destroy_unbinds MAX_ALTP2M INVALID_ALTP2M current n d v :
  vcpus d !! n = Some v ->
  ap2m_idx v = INVALID_ALTP2M \/ (ap2m_idx v < MAX_ALTP2M)%nat ->
  exists d',
    altp2m_vcpu_destroy MAX_ALTP2M INVALID_ALTP2M current n d
      = Done tt d' (pause_log current n) /\
    vcpus d' = <[n := mk_vcpu INVALID_ALTP2M]> (vcpus d) /\
    vcpus d' !! n = Some (mk_vcpu INVALID_ALTP2M) /\
    altp2m_active d' = altp2m_active d /\
    (ap2m_idx v = INVALID_ALTP2M \/ slot d (ap2m_idx v) = None ->
       altp2m_p2m d' = altp2m_p2m d) /\
    (forall p, ap2m_idx v <> INVALID_ALTP2M -> slot d (ap2m_idx v) = Some p ->
       altp2m_p2m d' =
         <[ap2m_idx v :=
             Some (with_active_vcpus (atomic_dec (active_vcpus p)) p)]>
           (altp2m_p2m d) /\
       slot d' (ap2m_idx v) =
         Some (with_active_vcpus (atomic_dec (active_vcpus p)) p) /\
       forall i, i <> ap2m_idx v -> slot d' i = slot d i) /\
    altp2m_vcpu_destroy MAX_ALTP2M INVALID_ALTP2M current n d'
      = Done tt d' (pause_log current n).
Proof.
  intros Hv Hvalid.
  assert (Hn : (n < length (vcpus d))%nat) by (by eapply lookup_lt_Some).
  assert (Hagain : forall s,
    altp2m_vcpu_destroy MAX_ALTP2M INVALID_ALTP2M current n
      (mk_domain s (altp2m_active d)
         (<[n := mk_vcpu INVALID_ALTP2M]> (vcpus d)))
    = Done tt
        (mk_domain s (altp2m_active d)
           (<[n := mk_vcpu INVALID_ALTP2M]> (vcpus d)))
        (pause_log current n)).
  { intros s.
    rewrite (vcpu_destroy_run _ _ _ _ _ (mk_vcpu INVALID_ALTP2M))
      by (simpl; by rewrite list_lookup_insert_eq).
    simpl. rewrite decide_True by done.
    unfold set_vcpus. simpl. by rewrite list_insert_insert_eq. }
  rewrite (vcpu_destroy_run _ _ _ _ _ v Hv). simpl.
  destruct (decide (ap2m_idx v = INVALID_ALTP2M)) as [Hi|Hi].
  { eexists. split; [reflexivity|]. simpl.
    rewrite list_lookup_insert_eq by done.
    repeat split; try done. apply Hagain. }
  destruct (decide (MAX_ALTP2M <= ap2m_idx v)%nat) as [Hm|Hm]; [lia|].
  destruct (slot d (ap2m_idx v)) as [p|] eqn:Hp.
  - eexists. split; [reflexivity|]. simpl.
    rewrite list_lookup_insert_eq by done.
    split; [done|]. split; [done|]. split; [done|]. split; [|split].
    + intros [?|?]; done.
    + intros p' _ [= <-]. split; [done|]. split.
      * unfold slot. simpl. rewrite list_lookup_insert_eq; [done|].
        by eapply slot_Some_lt.
      * intros i Hne. unfold slot. simpl.
        by rewrite list_lookup_insert_ne.
    + apply Hagain.
  - eexists. split; [reflexivity|]. simpl.
    rewrite list_lookup_insert_eq by done.
    repeat split; try done. apply Hagain.
Qed.

(** Destroying the first vcpu of [dom_two_views] takes one from the
    counter of view 0; destroying it again changes nothing. *)
Lemma vcpu_destroy_unbinds_witness :
  exists d',
    altp2m_vcpu_destroy xen_MAX_ALTP2M xen_INVALID_ALTP2M None 0 dom_two_views
      = Done tt d' [EvVcpuPause 0; EvVcpuUnpause 0] /\
    vcpus d' = [mk_vcpu xen_INVALID_ALTP2M; mk_vcpu 0] /\
    slot d' 0 = view 1 /\
    altp2m_vcpu_destroy xen_MAX_ALTP2M xen_INVALID_ALTP2M None 0 d'
      = Done tt d' [EvVcpuPause 0; EvVcpuUnpause 0].
Proof.
  destruct (vcpu_destroy_unbinds xen_MAX_ALTP2M xen_INVALID_ALTP2M None 0
              dom_two_views (mk_vcpu 0))
    as (d' & Hrun & Hvs & _ & _ & _ & Hdec & Hagain).
  - reflexivity.
  - right. vm_compute. lia.
  - exists d'. split; [exact Hrun|]. split; [exact Hvs|]. split; [|exact Hagain].
    destruct (Hdec (mk_p2m p2m_alternate 2)) as (_ & Hs & _).
    + apply Nat.eqb_neq. vm_compute. reflexivity.
    + reflexivity.
    + exact Hs.
Defined.

(** ** Rejected and faulting switches *)

Section SwitchFaults.
Variables MAX_ALTP2M INVALID_ALTP2M : nat.

(** C4, as the code has it.  A switch to an index below [MAX_ALTP2M]
    whose slot is empty returns [-EINVAL], the value also returned for an
    index out of range, and the domain is returned as it was received: no
    vcpu index and no counter has changed. *)
Theorem switch_empty_slot_rejected k d :
  (k < MAX_ALTP2M)%nat ->
  slot d k = None ->
  altp2m_switch_domain_altp2m_by_id MAX_ALTP2M INVALID_ALTP2M k d
    = Done (- EINVAL) d
        [EvDomainPauseExceptSelf; EvLock; EvUnlock; EvDomainUnpauseExceptSelf]
  /\ kind_of_rc (- EINVAL) = InvalidArgument
  /\ altp2m_switch_domain_altp2m_by_id MAX_ALTP2M INVALID_ALTP2M MAX_ALTP2M d
     = Done (- EINVAL) d [].
Proof.
  intros Hk Hs. rewrite !switch_domain_run, Hs.
  rewrite decide_False by lia. rewrite decide_True by lia. done.
Qed.

Hypothesis MAX_le_INVALID : (MAX_ALTP2M <= INVALID_ALTP2M)%nat.

Lemma rebindable_bound d k v :
  (k < MAX_ALTP2M)%nat -> is_Some (slot d k) ->
  rebindable MAX_ALTP2M INVALID_ALTP2M d k v <->
  bound_to_view MAX_ALTP2M INVALID_ALTP2M d v.
Proof.
  intros Hk Hs. unfold rebindable, bound_to_view. split.
  - intros [->|H]; [|done]. split; [lia|done].
  - intros H. by right.
Qed.

Lemma switch_domain_outcome k d :
  (k < MAX_ALTP2M)%nat -> is_Some (slot d k) ->
  (Forall (bound_to_view MAX_ALTP2M INVALID_ALTP2M d) (vcpus d) ->
   exists d',
     altp2m_switch_domain_altp2m_by_id MAX_ALTP2M INVALID_ALTP2M k d
       = Done 0 d'
           [EvDomainPauseExceptSelf; EvLock; EvUnlock;
            EvDomainUnpauseExceptSelf]) /\
  (~ Forall (bound_to_view MAX_ALTP2M INVALID_ALTP2M d) (vcpus d) ->
   is_fault (altp2m_switch_domain_altp2m_by_id MAX_ALTP2M INVALID_ALTP2M k d)).
Proof.
  intros Hk [pk Hpk]. rewrite switch_domain_run, Hpk.
  rewrite decide_False by lia. split.
  - intros Hall.
    assert (Hki : k <> INVALID_ALTP2M) by lia.
    assert (Hreb : Forall (rebindable MAX_ALTP2M INVALID_ALTP2M d k) (vcpus d)).
    { eapply List.Forall_impl; [|exact Hall]. intros v Hv.
      apply rebindable_bound; [done|by eexists|done]. }
    destruct (switch_loop_total MAX_ALTP2M INVALID_ALTP2M k (vcpus d) 0 d
                eq_refl Hki Hk (ex_intro _ pk Hpk) Hreb) as [d' Hd'].
    rewrite Hd'. by eexists.
  - intros Hnot.
    destruct (for_range _ _ _ d) as [[] d' l|] eqn:Hloop; [|done].
    destruct Hnot.
    destruct (switch_loop_done MAX_ALTP2M INVALID_ALTP2M k (vcpus d) 0 d d' l)
      as (_ & _ & _ & _ & Hall); [done|done|].
    eapply List.Forall_impl; [|exact Hall]. intros v Hv.
    apply (rebindable_bound d k v); [done|by eexists|done].
Qed.

(** C10. In the rebind loop the view of a vcpu that is not yet bound to
    the target is looked up and its counter decremented without a NULL
    check: for a vcpu that is unbound, or bound to an empty slot, the loop
    body faults on the NULL view.  A switch to an occupied slot completes
    exactly when every vcpu of the domain is bound to an occupied slot,
    and it faults otherwise; in particular it faults after
    [altp2m_vcpu_destroy] has unbound one of the vcpus. *)
Theorem switch_needs_bound_vcpus k d :
  (k < MAX_ALTP2M)%nat ->
  is_Some (slot d k) ->
  (forall s v, vcpus d !! s = Some v -> ap2m_idx v <> k ->
     ap2m_idx v = INVALID_ALTP2M \/
       ((ap2m_idx v < MAX_ALTP2M)%nat /\ slot d (ap2m_idx v) = None) ->
     switch_vcpu MAX_ALTP2M INVALID_ALTP2M k s d = Fault NULL_DEREF) /\
  ((exists d' log,
      altp2m_switch_domain_altp2m_by_id MAX_ALTP2M INVALID_ALTP2M k d
        = Done 0 d' log) <->
   Forall (bound_to_view MAX_ALTP2M INVALID_ALTP2M d) (vcpus d)) /\
  (~ Forall (bound_to_view MAX_ALTP2M INVALID_ALTP2M d) (vcpus d) ->
   is_fault (altp2m_switch_domain_altp2m_by_id MAX_ALTP2M INVALID_ALTP2M k d)) /\
  (forall current n d1 log, (n < length (vcpus d))%nat ->
     altp2m_vcpu_destroy MAX_ALTP2M INVALID_ALTP2M current n d
       = Done tt d1 log ->
     is_fault (altp2m_switch_domain_altp2m_by_id MAX_ALTP2M INVALID_ALTP2M k d1)).
Proof.
  intros Hk Hs.
  destruct (switch_domain_outcome k d Hk Hs) as [Hdone Hfault].
  split; [|split; [|split]].
  - intros s v Hv Hne Hbad. rewrite (switch_vcpu_run _ _ _ _ _ _ Hv).
    rewrite decide_False by done.
    destruct Hbad as [Hi|[Hm Hnone]].
    + by rewrite decide_True.
    + destruct (decide (ap2m_idx v = INVALID_ALTP2M)); [done|].
      rewrite decide_False by lia. by rewrite Hnone.
  - split.
    + intros (d' & log & Hrun).
      destruct (decide (Forall (bound_to_view MAX_ALTP2M INVALID_ALTP2M d)
                          (vcpus d))) as [|Hnot]; [done|].
      apply Hfault in Hnot. rewrite Hrun in Hnot. done.
    + intros Hall. destruct (Hdone Hall) as [d' Hd']. eauto.
  - exact Hfault.
  - intros current n d1 log Hn Hrun.
    destruct (lookup_lt_is_Some_2 _ _ Hn) as [v Hv].
    assert (Hd1 : vcpus d1 !! n = Some (mk_vcpu INVALID_ALTP2M) /\
                  is_Some (slot d1 k)).
    { rewrite (vcpu_destroy_run _ _ _ _ _ v Hv) in Hrun. simpl in Hrun.
      destruct Hs as [pk Hpk].
      destruct (decide (ap2m_idx v = INVALID_ALTP2M)).
      { injection Hrun as <- _. simpl.
        rewrite list_lookup_insert_eq by done. split; [done|].
        rewrite slot_set_vcpus. by eexists. }
      destruct (decide (MAX_ALTP2M <= ap2m_idx v)%nat); [discriminate|].
      destruct (slot d (ap2m_idx v)) as [p|].
      - injection Hrun as <- _. simpl.
        rewrite list_lookup_insert_eq by done. split; [done|].
        rewrite slot_set_vcpus, slot_insert. case_decide; by eexists.
      - injection Hrun as <- _. simpl.
        rewrite list_lookup_insert_eq by done. split; [done|].
        rewrite slot_set_vcpus. by eexists. }
    destruct Hd1 as [Hvn Hsk].
    apply (switch_domain_outcome k d1 Hk Hsk).
    intros Hall. rewrite Forall_lookup in Hall.
    destruct (Hall n _ Hvn) as [Hne _]. done.
Qed.

End SwitchFaults.

(** In [dom_two_views] slot 2 is empty: the switch to it is rejected with
    [-EINVAL] and the domain is untouched. *)
Lemma switch_empty_slot_rejected_witness :
  (2 < xen_MAX_ALTP2M)%nat /\
  slot dom_two_views 2 = None /\
  altp2m_switch_domain_altp2m_by_id xen_MAX_ALTP2M xen_INVALID_ALTP2M 2
    dom_two_views
  = Done (- EINVAL) dom_two_views
      [EvDomainPauseExceptSelf; EvLock; EvUnlock; EvDomainUnpauseExceptSelf].
Proof.
  assert (Hk : (2 < xen_MAX_ALTP2M)%nat) by (vm_compute; lia).
  assert (Hs : slot dom_two_views 2 = None) by reflexivity.
  split; [exact Hk|]. split; [exact Hs|].
  exact (proj1 (switch_empty_slot_rejected xen_MAX_ALTP2M xen_INVALID_ALTP2M
                  2 dom_two_views Hk Hs)).
Defined.

(** C4, as stated, fails: the switch of [dom_two_views] to the empty slot
    2 does not return a value of the NotFound kind. *)
Lemma switch_empty_slot_not_NotFound :
  (2 < xen_MAX_ALTP2M)%nat /\
  slot dom_two_views 2 = None /\
  ~ (exists rc d' log,
       altp2m_switch_domain_altp2m_by_id xen_MAX_ALTP2M xen_INVALID_ALTP2M 2
         dom_two_views = Done rc d' log /\
       kind_of_rc rc = NotFound).
Proof.
  split; [vm_compute; lia|]. split; [reflexivity|].
  intros (rc & d' & log & Hrun & Hkind).
  assert (E : altp2m_switch_domain_altp2m_by_id xen_MAX_ALTP2M
                xen_INVALID_ALTP2M 2 dom_two_views
              = Done (- EINVAL) dom_two_views
                  [EvDomainPauseExceptSelf; EvLock; EvUnlock;
                   EvDomainUnpauseExceptSelf])
    by (vm_compute; reflexivity).
  rewrite E in Hrun. injection Hrun as <- _ _.
  vm_compute in Hkind. discriminate.
Qed.

Lemma xen_MAX_le_INVALID : (xen_MAX_ALTP2M <= xen_INVALID_ALTP2M)%nat.
Proof. apply Nat.leb_le. vm_compute. reflexivity. Qed.

(** With the second vcpu unbound the switch of [dom_one_unbound] to view 1
    faults, and so does the switch of [dom_two_views] once its first vcpu
    has been destroyed. *)
Lemma switch_needs_bound_vcpus_witness :
  (1 < xen_MAX_ALTP2M)%nat /\
  is_Some (slot dom_one_unbound 1) /\
  is_fault (altp2m_switch_domain_altp2m_by_id xen_MAX_ALTP2M
              xen_INVALID_ALTP2M 1 dom_one_unbound) /\
  (forall d1 log,
     altp2m_vcpu_destroy xen_MAX_ALTP2M xen_INVALID_ALTP2M None 0
       dom_two_views = Done tt d1 log ->
     is_fault (altp2m_switch_domain_altp2m_by_id xen_MAX_ALTP2M
                 xen_INVALID_ALTP2M 1 d1)).
Proof.
  assert (Hk : (1 < xen_MAX_ALTP2M)%nat) by (vm_compute; lia).
  assert (Hs : is_Some (slot dom_one_unbound 1)) by (by eexists).
  assert (Hs' : is_Some (slot dom_two_views 1)) by (by eexists).
  split; [exact Hk|]. split; [exact Hs|]. split.
  - apply (switch_needs_bound_vcpus xen_MAX_ALTP2M xen_INVALID_ALTP2M
             xen_MAX_le_INVALID 1 dom_one_unbound Hk Hs).
    intros Hall. rewrite Forall_lookup in Hall.
    destruct (Hall 1%nat (mk_vcpu xen_INVALID_ALTP2M) eq_refl) as [Hne _].
    by apply Hne.
  - intros d1 log Hrun.
    destruct (switch_needs_bound_vcpus xen_MAX_ALTP2M xen_INVALID_ALTP2M
                xen_MAX_le_INVALID 1 dom_two_views Hk Hs')
      as (_ & _ & _ & Hdestroyed).
    apply (Hdestroyed None 0%nat d1 log); [simpl; lia|exact Hrun].
Defined.

(** ** Destroying a view *)

(** C2. For [0 < k < MAX_ALTP2M], [altp2m_destroy_by_id d k] completes,
    and it returns 0 exactly when slot [k] is occupied and the counter of
    its view is zero.  On every other return the domain is unchanged.  On
    success slot [k] is empty and the other slots are as before.  In a
    domain satisfying I2 it does not return 0 while a vcpu is bound to
    [k]. *)
Theorem destroy_by_id_success_iff MAX_ALTP2M k d :
  (0 < k < MAX_ALTP2M)%nat ->
  exists rc d' log,
    altp2m_destroy_by_id MAX_ALTP2M k d = Done rc d' log /\
    (rc = 0 <-> exists p, slot d k = Some p /\ active_vcpus p = 0) /\
    (rc <> 0 -> d' = d) /\
    (rc = 0 -> slot d' k = None /\ forall i, i <> k -> slot d' i = slot d i) /\
    (I2 d -> (exists v, v ∈ vcpus d /\ ap2m_idx v = k) -> rc <> 0).
Proof.
  intros Hk. rewrite destroy_by_id_run. rewrite decide_False by lia.
  destruct (slot d k) as [p|] eqn:Hp.
  - destruct (decide (active_vcpus p = 0)) as [Hz|Hz].
    + do 3 eexists. split; [reflexivity|]. split; [|split; [|split]].
      * split; [eauto|done].
      * done.
      * intros _. split.
        -- apply slot_insert_eq. by eexists.
        -- intros i Hne. by apply slot_insert_ne.
      * intros HI (v & Hin & Hv). specialize (HI k p Hp).
        pose proof (bound_count_pos k v (vcpus d) Hin Hv). lia.
    + do 3 eexists. split; [reflexivity|]. split; [|split; [|split]].
      * split; [done|]. intros (p' & [= <-] & Hz'). done.
      * done.
      * done.
      * done.
  - do 3 eexists. split; [reflexivity|]. split; [|split; [|split]].
    + split; [done|]. intros (p' & Hp' & _). done.
    + done.
    + done.
    + done.
Qed.

(** In [dom_two_views] view 1 has no vcpu and is destroyed; in
    [dom_switched], where I2 holds and both vcpus are bound to view 1,
    the view is kept and the domain is unchanged. *)
Lemma destroy_by_id_success_iff_witness :
  (0 < 1 < xen_MAX_ALTP2M)%nat /\
  (exists d' log,
     altp2m_destroy_by_id xen_MAX_ALTP2M 1 dom_two_views = Done 0 d' log /\
     slot d' 1 = None) /\
  I2 dom_switched /\
  (exists rc log,
     altp2m_destroy_by_id xen_MAX_ALTP2M 1 dom_switched
       = Done rc dom_switched log /\ rc <> 0).
Proof.
  assert (Hk : (0 < 1 < xen_MAX_ALTP2M)%nat) by (vm_compute; lia).
  assert (HI : I2 dom_switched).
  { intros i p.
    do 10 (destruct i as [|i];
           [vm_compute; intros Hp; try discriminate; by injection Hp as <-|]).
    vm_compute. discriminate. }
  split; [exact Hk|]. split; [|split; [exact HI|]].
  - destruct (destroy_by_id_success_iff xen_MAX_ALTP2M 1 dom_two_views Hk)
      as (rc & d' & log & Hrun & Hiff & _ & Hempty & _).
    assert (Hrc : rc = 0).
    { apply Hiff. exists (mk_p2m p2m_alternate 0). split; reflexivity. }
    subst rc. exists d', log. split; [exact Hrun|]. exact (proj1 (Hempty eq_refl)).
  - destruct (destroy_by_id_success_iff xen_MAX_ALTP2M 1 dom_switched Hk)
      as (rc & d' & log & Hrun & _ & Hsame & _ & Hbound).
    assert (Hrc : rc <> 0).
    { apply Hbound; [exact HI|]. exists (mk_vcpu 1). split; [|reflexivity].
      apply elem_of_cons. by left. }
    rewrite (Hsame Hrc) in Hrun. exists rc, log. split; [exact Hrun|exact Hrc].
Defined.

(** C3, as the code has it.  [altp2m_destroy_by_id] with index 0 or with
    an index of at least [MAX_ALTP2M] returns [-EBUSY] before it pauses or
    locks anything, and the domain is unchanged. *)
Theorem destroy_by_id_bad_index MAX_ALTP2M idx d :
  idx = 0%nat \/ (MAX_ALTP2M <= idx)%nat ->
  altp2m_destroy_by_id MAX_ALTP2M idx d = Done (- EBUSY) d [] /\
  kind_of_rc (- EBUSY) = Busy.
Proof.
  intros H. rewrite destroy_by_id_run. by rewrite decide_True.
Qed.

Lemma destroy_by_id_bad_index_witness :
  altp2m_destroy_by_id xen_MAX_ALTP2M 0 dom_switched
    = Done (- EBUSY) dom_switched [] /\
  altp2m_destroy_by_id xen_MAX_ALTP2M xen_MAX_ALTP2M dom_switched
    = Done (- EBUSY) dom_switched [].
Proof.
  split.
  - exact (proj1 (destroy_by_id_bad_index xen_MAX_ALTP2M 0 dom_switched
                    (or_introl eq_refl))).
  - exact (proj1 (destroy_by_id_bad_index xen_MAX_ALTP2M xen_MAX_ALTP2M
                    dom_switched (or_intror (le_n _)))).
Defined.

(** C3, as stated, fails: destroying index 0, or index [MAX_ALTP2M], does
    not return a value of the InvalidArgument kind. *)
Lemma destroy_by_id_bad_index_not_InvalidArgument :
  ~ (exists rc d' log,
       altp2m_destroy_by_id xen_MAX_ALTP2M 0 dom_switched = Done rc d' log /\
       kind_of_rc rc = InvalidArgument) /\
  ~ (exists rc d' log,
       altp2m_destroy_by_id xen_MAX_ALTP2M xen_MAX_ALTP2M dom_switched
         = Done rc d' log /\
       kind_of_rc rc = InvalidArgument).
Proof.
  split; intros (rc & d' & log & Hrun & Hkind);
    vm_compute in Hrun; injection Hrun as <- _ _;
    vm_compute in Hkind; discriminate.
Qed.

(** ** Allocating views *)

(** C6. [altp2m_init_by_id]: an index of at least [MAX_ALTP2M] is
    rejected with [-EINVAL] before anything is locked or allocated; at an
    occupied slot the call returns a non-zero value, allocates nothing
    and leaves the domain, and so the existing view, unchanged; when
    [xzalloc] fails it returns [-ENOMEM] with the slot still empty; when
    [p2m_init_one] fails the allocated view is freed, the slot is still
    empty and the initialiser's value is returned. *)
Theorem init_by_id_failures MAX_ALTP2M e idx d :
  ((MAX_ALTP2M <= idx)%nat ->
     altp2m_init_by_id MAX_ALTP2M e idx d = Done (- EINVAL) d [] /\
     kind_of_rc (- EINVAL) = InvalidArgument) /\
  ((idx < MAX_ALTP2M)%nat -> is_Some (slot d idx) ->
     exists rc log,
       altp2m_init_by_id MAX_ALTP2M e idx d = Done rc d log /\
       rc <> 0 /\ allocated log = []) /\
  ((idx < MAX_ALTP2M)%nat -> slot d idx = None -> xzalloc_ok e = false ->
     exists log,
       altp2m_init_by_id MAX_ALTP2M e idx d = Done (- ENOMEM) d log /\
       kind_of_rc (- ENOMEM) = OutOfMemory /\
       allocated log = [] /\ slot d idx = None) /\
  ((idx < MAX_ALTP2M)%nat -> slot d idx = None -> xzalloc_ok e = true ->
     p2m_init_one_rc e <> 0 ->
     exists log,
       altp2m_init_by_id MAX_ALTP2M e idx d = Done (p2m_init_one_rc e) d log /\
       log = [EvLock; EvXzalloc idx true; EvInitOne idx (p2m_init_one_rc e);
              EvXfree idx; EvStoreNull idx; EvUnlock] /\
       allocated log = [idx] /\ freed log = [idx] /\ slot d idx = None).
Proof.
  rewrite init_by_id_run, init_helper_run.
  split; [|split; [|split]].
  - intros H. by rewrite decide_True.
  - intros H [p Hp]. rewrite decide_False by lia. rewrite Hp.
    do 2 eexists. split; [reflexivity|]. done.
  - intros H Hs Hx. rewrite decide_False by lia. rewrite Hs, Hx.
    eexists. split; [reflexivity|]. done.
  - intros H Hs Hx Hrc. rewrite decide_False by lia. rewrite Hs, Hx.
    rewrite decide_False by done.
    eexists. split; [reflexivity|]. done.
Qed.

(** The four rejections on concrete domains: index 10; the occupied slot
    1; the empty slot 2 without memory; the empty slot 2 with a failing
    initialiser. *)
Lemma init_by_id_failures_witness :
  altp2m_init_by_id xen_MAX_ALTP2M env_ok 10 dom_two_views
    = Done (- EINVAL) dom_two_views [] /\
  (exists rc log,
     altp2m_init_by_id xen_MAX_ALTP2M env_ok 1 dom_two_views
       = Done rc dom_two_views log /\ rc <> 0 /\ allocated log = []) /\
  (exists log,
     altp2m_init_by_id xen_MAX_ALTP2M env_no_memory 2 dom_two_views
       = Done (- ENOMEM) dom_two_views log /\ allocated log = []) /\
  (exists log,
     altp2m_init_by_id xen_MAX_ALTP2M env_init_fails 2 dom_two_views
       = Done (- ENOMEM) dom_two_views log /\ freed log = [2%nat]).
Proof.
  split; [|split; [|split]].
  - apply (init_by_id_failures xen_MAX_ALTP2M env_ok 10 dom_two_views).
    vm_compute. lia.
  - apply (init_by_id_failures xen_MAX_ALTP2M env_ok 1 dom_two_views).
    + vm_compute. lia.
    + by eexists.
  - destruct (init_by_id_failures xen_MAX_ALTP2M env_no_memory 2 dom_two_views)
      as (_ & _ & H & _).
    destruct H as (log & Hrun & _ & Ha & _);
      [vm_compute; lia|reflexivity|reflexivity|].
    by exists log.
  - destruct (init_by_id_failures xen_MAX_ALTP2M env_init_fails 2 dom_two_views)
      as (_ & _ & _ & H).
    destruct H as (log & Hrun & _ & _ & Hf & _);
      [vm_compute; lia|reflexivity|reflexivity|vm_compute; discriminate|].
    by exists log.
Defined.

(** C7. [altp2m_init_next_available] runs [altp2m_init_helper] at the
    lowest index below [MAX_ALTP2M] whose slot is empty and nowhere else,
    stores that index through [idx], and returns the helper's value; on
    success the fresh view sits in that slot and the other slots are as
    before.  When every slot below [MAX_ALTP2M] is occupied it returns
    [-EINVAL], stores nothing through [idx], allocates nothing and leaves
    the domain unchanged. *)
Theorem init_next_available_first_free MAX_ALTP2M e d :
  ((forall j, (j < MAX_ALTP2M)%nat -> is_Some (slot d j)) ->
     altp2m_init_next_available MAX_ALTP2M e d
       = Done (- EINVAL, None) d [EvLock; EvUnlock] /\
     kind_of_rc (- EINVAL) = InvalidArgument /\
     kind_of_rc (- EINVAL) <> OutOfMemory /\
     allocated [EvLock; EvUnlock] = []) /\
  (forall j, (j < MAX_ALTP2M)%nat -> slot d j = None ->
     (forall j', (j' < j)%nat -> is_Some (slot d j')) ->
     exists rc d' log,
       altp2m_init_helper e j d = Done rc d' log /\
       altp2m_init_next_available MAX_ALTP2M e d
         = Done (rc, Some j) d' (EvLock :: log ++ [EvUnlock]) /\
       (forall i, EvXzalloc i true ∈ EvLock :: log ++ [EvUnlock] -> i = j) /\
       (forall i, i <> j -> slot d' i = slot d i) /\
       (rc = 0 -> (j < length (altp2m_p2m d))%nat ->
          slot d' j = Some fresh_view) /\
       (rc = 0 <-> xzalloc_ok e = true /\ p2m_init_one_rc e = 0)).
Proof.
  split.
  - intros Hfull. rewrite init_next_available_run.
    rewrite init_next_scan_full; [done|]. intros j Hj. apply Hfull. lia.
  - intros j Hj Hfree Hbelow. rewrite init_next_available_run.
    rewrite (init_next_scan_free e MAX_ALTP2M 0 d j);
      [|lia|done|intros; apply Hbelow; lia].
    rewrite init_helper_run, Hfree.
    destruct (xzalloc_ok e).
    + destruct (decide (p2m_init_one_rc e = 0)) as [Hz|Hz].
      * do 3 eexists. split; [reflexivity|]. split; [reflexivity|].
        split; [|split; [|split]].
        -- intros i Hin. simpl in Hin.
           repeat (apply elem_of_cons in Hin as [Hin|Hin];
                   [by (discriminate || injection Hin as ->)|]).
           by apply elem_of_nil in Hin.
        -- intros i Hne. by apply slot_insert_ne.
        -- intros _ Hlen. rewrite slot_insert. by rewrite decide_True.
        -- done.
      * do 3 eexists. split; [reflexivity|]. split; [reflexivity|].
        split; [|split; [|split]].
        -- intros i Hin. simpl in Hin.
           repeat (apply elem_of_cons in Hin as [Hin|Hin];
                   [by (discriminate || injection Hin as ->)|]).
           by apply elem_of_nil in Hin.
        -- done.
        -- done.
        -- split; [done|]. intros [_ ?]. done.
    + do 3 eexists. split; [reflexivity|]. split; [reflexivity|].
      split; [|split; [|split]].
      * intros i Hin. simpl in Hin.
        repeat (apply elem_of_cons in Hin as [Hin|Hin];
                [by (discriminate || injection Hin as ->)|]).
        by apply elem_of_nil in Hin.
      * done.
      * done.
      * split; [done|]. intros [? _]. done.
Qed.

(** On the full table the scan finds nothing; on [dom_two_views] it
    allocates at index 2, the lowest empty one. *)
Lemma init_next_available_first_free_witness :
  altp2m_init_next_available xen_MAX_ALTP2M env_ok dom_full
    = Done (- EINVAL, None) dom_full [EvLock; EvUnlock] /\
  exists d',
    altp2m_init_next_available xen_MAX_ALTP2M env_ok dom_two_views
      = Done (0, Some 2%nat) d'
          [EvLock; EvXzalloc 2 true; EvInitOne 2 0; EvStoreView 2; EvUnlock] /\
    slot d' 2 = Some fresh_view.
Proof.
  split.
  - apply (init_next_available_first_free xen_MAX_ALTP2M env_ok dom_full).
    intros j Hj.
    do 10 (destruct j as [|j]; [by eexists|]).
    vm_compute in Hj. lia.
  - destruct (init_next_available_first_free xen_MAX_ALTP2M env_ok
                dom_two_views) as [_ Hfree].
    destruct (Hfree 2%nat) as (rc & d' & log & Hhelper & Hrun & _ & _ & Hs & _).
    + vm_compute. lia.
    + reflexivity.
    + intros j' Hj'. do 2 (destruct j' as [|j']; [by eexists|]). lia.
    + vm_compute in Hhelper. injection Hhelper as <- <- <-.
      exists (set_slots dom_two_views
                (<[2%nat := Some fresh_view]> (altp2m_p2m dom_two_views))).
      split; [exact Hrun|]. reflexivity.
Defined.

(** ** Flushing and tearing down *)

(** C8. [altp2m_flush] stops on a failed assertion when altp2m is active
    and when the view of an occupied slot below [MAX_ALTP2M] has a
    non-zero counter.  It completes exactly when altp2m is inactive and
    all those counters are zero; then every slot below [MAX_ALTP2M],
    slot 0 included, is empty, the vcpus and the activation flag are
    untouched, and each view that was in the table has been torn down
    and freed. *)
Theorem flush_empties_table MAX_ALTP2M d :
  (altp2m_active d = true -> altp2m_flush MAX_ALTP2M d = Fault ASSERT_FAILED) /\
  ((exists i p, (i < MAX_ALTP2M)%nat /\ slot d i = Some p /\
      active_vcpus p <> 0) ->
   altp2m_flush MAX_ALTP2M d = Fault ASSERT_FAILED) /\
  (altp2m_active d = false ->
   (forall i p, (i < MAX_ALTP2M)%nat -> slot d i = Some p ->
      active_vcpus p = 0) ->
   exists d' log, altp2m_flush MAX_ALTP2M d = Done tt d' log) /\
  (forall d' log, altp2m_flush MAX_ALTP2M d = Done tt d' log ->
     altp2m_active d = false /\
     (forall i p, (i < MAX_ALTP2M)%nat -> slot d i = Some p ->
        active_vcpus p = 0) /\
     (forall i, (i < MAX_ALTP2M)%nat -> slot d' i = None) /\
     vcpus d' = vcpus d /\
     altp2m_active d' = altp2m_active d /\
     log = EvLock :: flat_map flush_events (occupied_below d MAX_ALTP2M)
             ++ [EvUnlock] /\
     (forall i, (i < MAX_ALTP2M)%nat -> is_Some (slot d i) ->
        EvTeardownOne i ∈ log /\ EvXfree i ∈ log)).
Proof. exact (flush_outcome MAX_ALTP2M d). Qed.

(** Flushing [dom_inactive] frees the views of slots 0 and 2 and leaves
    the table empty; flushing [dom_two_views], where altp2m is active,
    trips the assertion. *)
Lemma flush_empties_table_witness :
  altp2m_flush xen_MAX_ALTP2M dom_two_views = Fault ASSERT_FAILED /\
  exists d',
    altp2m_flush xen_MAX_ALTP2M dom_inactive
      = Done tt d'
          [EvLock; EvTeardownOne 0; EvXfree 0; EvStoreNull 0;
           EvTeardownOne 2; EvXfree 2; EvStoreNull 2; EvUnlock] /\
    (forall i, (i < xen_MAX_ALTP2M)%nat -> slot d' i = None).
Proof.
  split.
  - exact (proj1 (flush_empties_table xen_MAX_ALTP2M dom_two_views) eq_refl).
  - destruct (flush_empties_table xen_MAX_ALTP2M dom_inactive)
      as (_ & _ & Htotal & Hpost).
    destruct Htotal as (d' & log & Hrun).
    + reflexivity.
    + intros i p Hi.
      do 10 (destruct i as [|i];
             [vm_compute; intros Hp; try discriminate; by injection Hp as <-|]).
      vm_compute in Hi. lia.
    + destruct (Hpost d' log Hrun) as (_ & _ & Hempty & _ & _ & Hlog & _).
      exists d'. split; [|exact Hempty].
      rewrite Hrun, Hlog. reflexivity.
Defined.

(** C5, as the code has it.  [altp2m_destroy_by_id] and [altp2m_flush]
    tear the view down, free it and only then clear its slot, all between
    taking and releasing the altp2m lock; [altp2m_teardown] tears each
    view down and frees it. *)
Theorem teardown_paths_order MAX_ALTP2M d :
  (forall k p, (0 < k < MAX_ALTP2M)%nat -> slot d k = Some p ->
     active_vcpus p = 0 ->
     exists d',
       altp2m_destroy_by_id MAX_ALTP2M k d
       = Done 0 d'
           ([EvDomainPauseExceptSelf; EvLock] ++ flush_events k
            ++ [EvUnlock; EvDomainUnpauseExceptSelf])) /\
  (forall d' log, altp2m_flush MAX_ALTP2M d = Done tt d' log ->
     log = [EvLock] ++ flat_map flush_events (occupied_below d MAX_ALTP2M)
             ++ [EvUnlock] /\
     forall i, (i < MAX_ALTP2M)%nat -> is_Some (slot d i) ->
       has_block (flush_events i)
         (flat_map flush_events (occupied_below d MAX_ALTP2M))) /\
  (exists d',
     altp2m_teardown MAX_ALTP2M d
     = Done tt d' (flat_map teardown_events (occupied_below d MAX_ALTP2M))) /\
  (forall i, (i < MAX_ALTP2M)%nat -> is_Some (slot d i) ->
     has_block (teardown_events i)
       (flat_map teardown_events (occupied_below d MAX_ALTP2M))).
Proof.
  split; [|split; [|split]].
  - intros k p Hk Hp Hz. rewrite destroy_by_id_run, Hp.
    rewrite decide_False by lia. rewrite decide_True by done. by eexists.
  - intros d' log Hrun.
    destruct (flush_outcome MAX_ALTP2M d) as (_ & _ & _ & Hpost).
    destruct (Hpost d' log Hrun) as (_ & _ & _ & _ & _ & Hlog & _).
    split; [exact Hlog|]. intros i Hi Hocc.
    apply has_block_flat_map, elem_of_occupied_range. split; [lia|done].
  - unfold altp2m_teardown. rewrite teardown_loop_run. by eexists.
  - intros i Hi Hocc.
    apply has_block_flat_map, elem_of_occupied_range. split; [lia|done].
Qed.

(** The three paths on concrete domains. *)
Lemma teardown_paths_order_witness :
  (exists d',
     altp2m_destroy_by_id xen_MAX_ALTP2M 1 dom_two_views
     = Done 0 d'
         [EvDomainPauseExceptSelf; EvLock; EvTeardownOne 1; EvXfree 1;
          EvStoreNull 1; EvUnlock; EvDomainUnpauseExceptSelf]) /\
  (exists d',
     altp2m_teardown xen_MAX_ALTP2M dom_inactive
     = Done tt d' [EvTeardownOne 0; EvXfree 0; EvTeardownOne 2; EvXfree 2]).
Proof.
  destruct (teardown_paths_order xen_MAX_ALTP2M dom_two_views)
    as (Hdestroy & _).
  destruct (teardown_paths_order xen_MAX_ALTP2M dom_inactive)
    as (_ & _ & Hteardown & _).
  split.
  - apply (Hdestroy 1%nat (mk_p2m p2m_alternate 0)).
    + vm_compute. lia.
    + reflexivity.
    + reflexivity.
  - exact Hteardown.
Defined.

(** C5, as stated, fails on each of the three paths: the destroy of view
    1 of [dom_two_views] and the flush of [dom_inactive] clear the slot
    after the view was torn down and freed, and the teardown of
    [dom_inactive] does not follow the stated order either. *)
Lemma teardown_paths_not_spec_order :
  (completes (altp2m_destroy_by_id xen_MAX_ALTP2M 1 dom_two_views) = true /\
   spec_teardown_order
     (log_of (altp2m_destroy_by_id xen_MAX_ALTP2M 1 dom_two_views)) 1 = false /\
   precedes (EvXfree 1) (EvStoreNull 1)
     (log_of (altp2m_destroy_by_id xen_MAX_ALTP2M 1 dom_two_views)) = true) /\
  (completes (altp2m_flush xen_MAX_ALTP2M dom_inactive) = true /\
   spec_teardown_order
     (log_of (altp2m_flush xen_MAX_ALTP2M dom_inactive)) 0 = false /\
   precedes (EvXfree 0) (EvStoreNull 0)
     (log_of (altp2m_flush xen_MAX_ALTP2M dom_inactive)) = true) /\
  (completes (altp2m_teardown xen_MAX_ALTP2M dom_inactive) = true /\
   spec_teardown_order
     (log_of (altp2m_teardown xen_MAX_ALTP2M dom_inactive)) 0 = false).
Proof. vm_compute. repeat split. Qed.

(** ** A run of the operations in sequence *)

(** A domain with four slots and two vcpus: the table is initialised,
    view 0 allocated, both vcpus initialised, view 1 allocated, the domain
    switched to view 1; then the destroy of view 0, of view 1 and of the
    empty view 2 are attempted.  The switch leaves both vcpus on view 1
    with counters 0 and 2; all three destroys return [-EBUSY]. *)
Example run_two_vcpus :
  (altp2m_init ;;
   let* r1 := altp2m_init_by_id 4 env_ok 0 in
   altp2m_vcpu_initialize 4 9 0 ;;
   altp2m_vcpu_initialize 4 9 1 ;;
   let* r2 := altp2m_init_by_id 4 env_ok 1 in
   let* r3 := altp2m_switch_domain_altp2m_by_id 4 9 1 in
   let* d := get in
   let* r4 := altp2m_destroy_by_id 4 0 in
   let* r5 := altp2m_destroy_by_id 4 1 in
   let* r6 := altp2m_destroy_by_id 4 2 in
   let* d' := get in
   ret ([r1; r2; r3; r4; r5; r6], d, d'))
    (mk_domain [None; None; None; None] true [mk_vcpu 9; mk_vcpu 9])
  = let d := mk_domain [view 0; view 2; None; None] false
               [mk_vcpu 1; mk_vcpu 1] in
    Done ([0; 0; 0; - EBUSY; - EBUSY; - EBUSY], d, d) d
      [EvSpinLockInit;
       EvLock; EvXzalloc 0 true; EvInitOne 0 0; EvStoreView 0; EvUnlock;
       EvVcpuPause 0; EvVcpuUnpause 0; EvVcpuPause 1; EvVcpuUnpause 1;
       EvLock; EvXzalloc 1 true; EvInitOne 1 0; EvStoreView 1; EvUnlock;
       EvDomainPauseExceptSelf; EvLock; EvUnlock; EvDomainUnpauseExceptSelf;
       EvDomainPauseExceptSelf; EvLock; EvUnlock; EvDomainUnpauseExceptSelf;
       EvDomainPauseExceptSelf; EvLock; EvUnlock; EvDomainUnpauseExceptSelf].
Proof. vm_compute. reflexivity. Qed.

(** * Further properties of the operations *)

(** ** Looking up the view of a vcpu *)

Lemma get_altp2m_run MAX_ALTP2M INVALID_ALTP2M n d v :
  vcpus d !! n = Some v ->
  altp2m_get_altp2m MAX_ALTP2M INVALID_ALTP2M n d =
  if decide (ap2m_idx v = INVALID_ALTP2M) then Done None d []
  else if decide (MAX_ALTP2M <= ap2m_idx v)%nat then Fault BUG
  else
    Done (match slot d (ap2m_idx v) with
          | Some _ => Some (ap2m_idx v)
          | None => None
          end) d [].
Proof.
  intros Hv. unfold altp2m_get_altp2m. mrun.
  destruct (decide (ap2m_idx v = INVALID_ALTP2M)).
  { by rewrite bool_decide_eq_true_2. }
  rewrite bool_decide_eq_false_2 by done. mrun.
  destruct (decide (MAX_ALTP2M <= ap2m_idx v)%nat).
  { by rewrite bool_decide_eq_true_2. }
  rewrite bool_decide_eq_false_2 by done. by mrun.
Qed.

(** X1. [altp2m_get_altp2m] is a pure lookup: when it returns, the domain
    is unchanged and nothing was called.  It returns a view, the one of
    the slot the vcpu's index names, exactly when the vcpu is bound to a
    view; it hits [BUG_ON] exactly when the index is neither
    [INVALID_ALTP2M] nor below [MAX_ALTP2M]. *)
Theorem get_altp2m_lookup MAX_ALTP2M INVALID_ALTP2M n d v :
  vcpus d !! n = Some v ->
  (forall r d' log,
     altp2m_get_altp2m MAX_ALTP2M INVALID_ALTP2M n d = Done r d' log ->
     d' = d /\ log = [] /\
     (forall i, r = Some i <->
        i = ap2m_idx v /\ bound_to_view MAX_ALTP2M INVALID_ALTP2M d v)) /\
  (altp2m_get_altp2m MAX_ALTP2M INVALID_ALTP2M n d = Fault BUG <->
   ap2m_idx v <> INVALID_ALTP2M /\ (MAX_ALTP2M <= ap2m_idx v)%nat) /\
  (is_fault (altp2m_get_altp2m MAX_ALTP2M INVALID_ALTP2M n d) ->
   altp2m_get_altp2m MAX_ALTP2M INVALID_ALTP2M n d = Fault BUG).
Proof.
  intros Hv. rewrite (get_altp2m_run _ _ _ _ _ Hv). unfold bound_to_view.
  destruct (decide (ap2m_idx v = INVALID_ALTP2M)) as [Hi|Hi].
  { split; [|split].
    - intros r d' log [= <- <- <-]. split; [done|]. split; [done|].
      intros i. split; [done|]. intros (_ & ? & _). done.
    - split; [done|]. intros [? _]. done.
    - done. }
  destruct (decide (MAX_ALTP2M <= ap2m_idx v)%nat) as [Hm|Hm].
  { split; [|split]; [done| |done]. split; done. }
  split; [|split].
  - intros r d' log [= <- <- <-]. split; [done|]. split; [done|].
    intros i. destruct (slot d (ap2m_idx v)) as [p|].
    + split.
      * intros [= <-]. split; [done|]. split; [done|]. split; [lia|by eexists].
      * intros [-> _]. done.
    + split; [done|]. intros (_ & _ & _ & [? ?]). done.
  - split; [done|]. intros [_ ?]. lia.
  - done.
Qed.

Lemma get_altp2m_lookup_witness :
  altp2m_get_altp2m xen_MAX_ALTP2M xen_INVALID_ALTP2M 0 dom_two_views
    = Done (Some 0%nat) dom_two_views [] /\
  altp2m_get_altp2m xen_MAX_ALTP2M xen_INVALID_ALTP2M 1 dom_one_unbound
    = Done None dom_one_unbound [].
Proof.
  destruct (get_altp2m_lookup xen_MAX_ALTP2M xen_INVALID_ALTP2M 0
              dom_two_views (mk_vcpu 0) eq_refl) as (H0 & _ & _).
  destruct (get_altp2m_lookup xen_MAX_ALTP2M xen_INVALID_ALTP2M 1
              dom_one_unbound (mk_vcpu xen_INVALID_ALTP2M) eq_refl)
    as (H1 & Hbug & Hfault).
  split.
  - destruct (altp2m_get_altp2m xen_MAX_ALTP2M xen_INVALID_ALTP2M 0
                dom_two_views) as [r d' log|f] eqn:E; [|by vm_compute in E].
    destruct (H0 r d' log eq_refl) as (-> & -> & Hr).
    f_equal. apply Hr. split; [done|]. split; [|split].
    + apply Nat.eqb_neq. vm_compute. reflexivity.
    + vm_compute. lia.
    + by eexists.
  - destruct (altp2m_get_altp2m xen_MAX_ALTP2M xen_INVALID_ALTP2M 1
                dom_one_unbound) as [r d' log|f] eqn:E.
    + destruct (H1 r d' log eq_refl) as (-> & -> & Hr).
      f_equal. destruct r as [i|]; [|done].
      destruct (proj1 (Hr i) eq_refl) as (_ & Hne & _). by destruct Hne.
    + destruct (proj1 Hbug (Hfault I)) as [Hne _]. by destruct Hne.
Defined.

(** ** Binding a vcpu for the first time *)

Lemma vcpu_initialize_run MAX_ALTP2M INVALID_ALTP2M n d :
  altp2m_vcpu_initialize MAX_ALTP2M INVALID_ALTP2M n d =
  match vcpus d !! n with
  | None => Fault NULL_DEREF
  | Some _ =>
      if decide (0%nat = INVALID_ALTP2M) then Fault NULL_DEREF
      else if decide (MAX_ALTP2M <= 0)%nat then Fault BUG
      else
        match slot d 0 with
        | None => Fault NULL_DEREF
        | Some p =>
            Done tt
              (mk_domain
                 (<[0%nat :=
                      Some (with_active_vcpus (atomic_inc (active_vcpus p)) p)]>
                    (altp2m_p2m d))
                 (altp2m_active d)
                 (<[n := mk_vcpu 0]> (vcpus d)))
              [EvVcpuPause n; EvVcpuUnpause n]
        end
  end.
Proof.
  unfold altp2m_vcpu_initialize, altp2m_get_altp2m. mrun.
  destruct (vcpus d !! n) as [v|] eqn:Hv; mrun; [|done].
  rewrite list_lookup_insert_eq by (by eapply lookup_lt_Some). mrun.
  destruct (decide (0%nat = INVALID_ALTP2M)) as [Hi|Hi].
  { rewrite bool_decide_eq_true_2 by done. by mrun. }
  rewrite bool_decide_eq_false_2 by done. mrun.
  destruct (decide (MAX_ALTP2M <= 0)%nat) as [Hm|Hm].
  { rewrite bool_decide_eq_true_2 by done. by mrun. }
  rewrite bool_decide_eq_false_2 by done. mrun.
  rewrite !slot_set_vcpus.
  destruct (slot d 0) as [p|] eqn:Hp; mrun; [|done].
  rewrite slot_set_vcpus, Hp. done.
Qed.

Lemma atomic_dec_inc c :
  - 2 ^ 31 <= c <= INT_MAX -> atomic_dec (atomic_inc c) = c.
Proof.
  intros Hc. unfold atomic_dec, atomic_inc.
  replace (wrap_int (c + 1) - 1) with (wrap_int (c + 1) + (-1)) by lia.
  rewrite wrap_int_add. replace (c + 1 + -1) with c by lia.
  by apply wrap_int_id.
Qed.

(** X2. [altp2m_vcpu_initialize] needs view 0: with slot 0 occupied (and
    0 a valid index) it binds the vcpu to view 0, adds one to that view's
    counter and touches no other slot or vcpu; with slot 0 empty it
    dereferences NULL. *)
Theorem vcpu_initialize_binds_view0 MAX_ALTP2M INVALID_ALTP2M n d v :
  vcpus d !! n = Some v ->
  0%nat <> INVALID_ALTP2M ->
  (0 < MAX_ALTP2M)%nat ->
  (slot d 0 = None ->
   altp2m_vcpu_initialize MAX_ALTP2M INVALID_ALTP2M n d = Fault NULL_DEREF) /\
  (forall p, slot d 0 = Some p ->
   exists d',
     altp2m_vcpu_initialize MAX_ALTP2M INVALID_ALTP2M n d
       = Done tt d' [EvVcpuPause n; EvVcpuUnpause n] /\
     vcpus d' = <[n := mk_vcpu 0]> (vcpus d) /\
     altp2m_active d' = altp2m_active d /\
     slot d' 0 = Some (with_active_vcpus (atomic_inc (active_vcpus p)) p) /\
     forall i, i <> 0%nat -> slot d' i = slot d i).
Proof.
  intros Hv Hi Hm. rewrite vcpu_initialize_run, Hv.
  rewrite decide_False by done. rewrite decide_False by lia. split.
  - by intros ->.
  - intros p Hp. rewrite Hp. eexists. split; [reflexivity|]. simpl.
    split; [done|]. split; [done|]. split.
    + unfold slot. simpl. rewrite list_lookup_insert_eq; [done|].
      by eapply slot_Some_lt.
    + intros i Hne. unfold slot. simpl. by rewrite list_lookup_insert_ne.
Qed.

Lemma xen_INVALID_nonzero : 0%nat <> xen_INVALID_ALTP2M.
Proof. apply Nat.eqb_neq. vm_compute. reflexivity. Qed.

(** Initialising the unbound vcpu of [dom_one_unbound] brings the counter
    of view 0 from one to two; in [dom_created] there is no view 0. *)
Lemma vcpu_initialize_binds_view0_witness :
  altp2m_vcpu_initialize xen_MAX_ALTP2M xen_INVALID_ALTP2M 1 dom_created
    = Fault NULL_DEREF /\
  exists d',
    altp2m_vcpu_initialize xen_MAX_ALTP2M xen_INVALID_ALTP2M 1 dom_one_unbound
      = Done tt d' [EvVcpuPause 1; EvVcpuUnpause 1] /\
    vcpus d' = [mk_vcpu 0; mk_vcpu 0] /\
    slot d' 0 = view 2.
Proof.
  assert (Hm : (0 < xen_MAX_ALTP2M)%nat) by (vm_compute; lia).
  split.
  - apply (vcpu_initialize_binds_view0 xen_MAX_ALTP2M xen_INVALID_ALTP2M 1
             dom_created (mk_vcpu xen_INVALID_ALTP2M) eq_refl
             xen_INVALID_nonzero Hm).
    reflexivity.
  - destruct (vcpu_initialize_binds_view0 xen_MAX_ALTP2M xen_INVALID_ALTP2M 1
                dom_one_unbound (mk_vcpu xen_INVALID_ALTP2M) eq_refl
                xen_INVALID_nonzero Hm) as [_ H].
    destruct (H (mk_p2m p2m_alternate 1) eq_refl)
      as (d' & Hrun & Hvs & _ & Hs & _).
    exists d'. split; [exact Hrun|]. split; [exact Hvs|exact Hs].
Defined.

(** X3. Destroying a vcpu right after initialising it undoes the
    initialisation: for a vcpu that was unbound, the domain is back in the
    state it started from. *)
Theorem vcpu_initialize_destroy_roundtrip MAX_ALTP2M INVALID_ALTP2M
    current n d v p :
  vcpus d !! n = Some v ->
  ap2m_idx v = INVALID_ALTP2M ->
  0%nat <> INVALID_ALTP2M ->
  (0 < MAX_ALTP2M)%nat ->
  slot d 0 = Some p ->
  - 2 ^ 31 <= active_vcpus p <= INT_MAX ->
  (altp2m_vcpu_initialize MAX_ALTP2M INVALID_ALTP2M n ;;
   altp2m_vcpu_destroy MAX_ALTP2M INVALID_ALTP2M current n) d
  = Done tt d ([EvVcpuPause n; EvVcpuUnpause n] ++ pause_log current n).
Proof.
  intros Hv Hidx Hi Hm Hp Hrange. unfold bind.
  rewrite vcpu_initialize_run, Hv.
  rewrite decide_False by done. rewrite decide_False by lia. rewrite Hp.
  assert (Hlt : (n < length (vcpus d))%nat) by (by eapply lookup_lt_Some).
  assert (H0 : (0 < length (altp2m_p2m d))%nat) by (by eapply slot_Some_lt).
  rewrite (vcpu_destroy_run _ _ _ _ _ (mk_vcpu 0))
    by (simpl; by rewrite list_lookup_insert_eq).
  cbn [ap2m_idx]. rewrite decide_False by done. rewrite decide_False by lia.
  unfold slot at 1. cbn [altp2m_p2m]. rewrite list_lookup_insert_eq by done.
  unfold set_vcpus, set_slots, with_active_vcpus.
  cbn [altp2m_p2m altp2m_active vcpus active_vcpus p2m_class].
  rewrite !list_insert_insert_eq, atomic_dec_inc by done.
  f_equal. destruct d as [s a vs]. cbn in *. f_equal.
  - apply list_insert_id. unfold slot in Hp. cbn in Hp.
    destruct (s !! 0%nat) as [e|]; [|done]. subst e. by destruct p.
  - apply list_insert_id. rewrite Hv. destruct v as [j]. cbn in Hidx.
    by subst j.
Qed.

Lemma vcpu_initialize_destroy_roundtrip_witness :
  (altp2m_vcpu_initialize xen_MAX_ALTP2M xen_INVALID_ALTP2M 1 ;;
   altp2m_vcpu_destroy xen_MAX_ALTP2M xen_INVALID_ALTP2M None 1)
    dom_one_unbound
  = Done tt dom_one_unbound
      [EvVcpuPause 1; EvVcpuUnpause 1; EvVcpuPause 1; EvVcpuUnpause 1].
Proof.
  apply (vcpu_initialize_destroy_roundtrip xen_MAX_ALTP2M xen_INVALID_ALTP2M
           None 1 dom_one_unbound (mk_vcpu xen_INVALID_ALTP2M)
           (mk_p2m p2m_alternate 1)).
  - reflexivity.
  - reflexivity.
  - exact xen_INVALID_nonzero.
  - vm_compute. lia.
  - reflexivity.
  - vm_compute. split; discriminate.
Defined.

(** ** Consistency is kept by every call *)

Lemma bound_count_app i (l1 l2 : list vcpu) :
  bound_count i (l1 ++ l2) = (bound_count i l1 + bound_count i l2)%nat.
Proof. unfold bound_count. by rewrite list.filter_app, length_app. Qed.

Lemma bound_count_insert i n (vs : list vcpu) v w :
  vs !! n = Some v ->
  Z.of_nat (bound_count i (<[n := w]> vs)) =
  Z.of_nat (bound_count i vs)
  - (if decide (ap2m_idx v = i) then 1 else 0)
  + (if decide (ap2m_idx w = i) then 1 else 0).
Proof.
  intros Hv.
  assert (Hn : (n < length vs)%nat) by (by eapply lookup_lt_Some).
  rewrite <- (take_drop_middle vs n v Hv) at 2.
  rewrite (insert_take_drop vs n w Hn).
  rewrite !bound_count_app, !bound_count_cons.
  repeat case_decide; lia.
Qed.

Lemma bound_count_zero i (vs : list vcpu) :
  (forall v, v ∈ vs -> ap2m_idx v <> i) -> bound_count i vs = 0%nat.
Proof.
  intros H. induction vs as [|v vs IH]; [done|].
  rewrite bound_count_cons, IH.
  - rewrite decide_False; [done|]. apply H. apply elem_of_cons. by left.
  - intros w Hw. apply H. apply elem_of_cons. by right.
Qed.



Lemma for_range_length (body : nat -> M unit) n :
  (forall i d d' log, body i d = Done tt d' log ->
     length (altp2m_p2m d') = length (altp2m_p2m d)) ->
  forall lo d d' log, for_range lo n body d = Done tt d' log ->
    length (altp2m_p2m d') = length (altp2m_p2m d).
Proof.
  intros Hbody. induction n as [|n IH]; intros lo d d' log Hrun.
  - by injection Hrun as <- _.
  - rewrite for_range_S in Hrun.
    destruct (body lo d) as [[] d1 l1|] eqn:H1; [|done].
    destruct (for_range (S lo) n body d1) as [[] d2 l2|] eqn:H2; [|done].
    injection Hrun as <- _.
    rewrite (IH _ _ _ _ H2). by eapply Hbody.
Qed.

Lemma flush_loop_length n lo d d' log :
  for_range lo n flush_slot d = Done tt d' log ->
  length (altp2m_p2m d') = length (altp2m_p2m d).
Proof.
  apply for_range_length. clear. intros i d d' log.
  rewrite flush_slot_run. destruct (slot d i) as [p|].
  - destruct (decide (active_vcpus p = 0)); [|done].
    intros [= <- _]. simpl. apply length_insert.
  - by intros [= <- _].
Qed.

Lemma switch_loop_length MAX_ALTP2M INVALID_ALTP2M k n lo d d' log :
  for_range lo n (switch_vcpu MAX_ALTP2M INVALID_ALTP2M k) d = Done tt d' log ->
  length (altp2m_p2m d') = length (altp2m_p2m d).
Proof.
  apply for_range_length. clear. intros i d d' log.
  destruct (vcpus d !! i) as [v|] eqn:Hv.
  - rewrite (switch_vcpu_run _ _ _ _ _ _ Hv).
    repeat (case_decide; [done || by intros [= <- _]|]).
    destruct (slot d (ap2m_idx v)); [|done].
    repeat (case_decide; [done|]).
    destruct (slot d k); [|done].
    intros [= <- _]. simpl. by rewrite !length_insert.
  - unfold switch_vcpu. mrun. done.
Qed.

Section Consistency.
Variables MAX_ALTP2M INVALID_ALTP2M : nat.
Hypothesis MAX_le_INVALID : (MAX_ALTP2M <= INVALID_ALTP2M)%nat.


Lemma consistent_slot_lt d i :
  consistent MAX_ALTP2M INVALID_ALTP2M d -> is_Some (slot d i) -> (i < MAX_ALTP2M)%nat.
Proof.
  intros (Hlen & _) [p Hp]. rewrite <- Hlen. by eapply slot_Some_lt.
Qed.


Lemma consistent_count_range d i :
  consistent MAX_ALTP2M INVALID_ALTP2M d ->
  0 <= Z.of_nat (bound_count i (vcpus d)) <= INT_MAX.
Proof.
  intros (_ & Hn & _). pose proof (bound_count_le i (vcpus d)). lia.
Qed.






Lemma switch_consistent k d rc d' log :
  altp2m_switch_domain_altp2m_by_id MAX_ALTP2M INVALID_ALTP2M k d
    = Done rc d' log ->
  consistent MAX_ALTP2M INVALID_ALTP2M d ->
  consistent MAX_ALTP2M INVALID_ALTP2M d'.
Proof.
  rewrite switch_domain_run. intros Hrun Hc.
  destruct (decide (MAX_ALTP2M <= k)%nat); [by injection Hrun as _ <- _|].
  destruct (slot d k) as [pk|] eqn:Hpk; [|by injection Hrun as _ <- _].
  destruct (for_range _ _ _ d) as [[] d1 l|] eqn:Hloop; [|done].
  assert (d' = d1) by congruence. subst d'. clear Hrun.
  pose proof (switch_loop_length _ _ _ _ _ _ _ _ Hloop) as Hlen1.
  destruct (switch_loop_done MAX_ALTP2M INVALID_ALTP2M k (vcpus d) 0 d d1 l
              eq_refl Hloop) as (_ & _ & Hvs & Hsl & _).
  simpl in Hvs. pose proof Hc as (Hlen & Hn & Hb & HI).
  split; [|split; [|split]].
  - congruence.
  - by rewrite Hvs, length_map.
  - intros v. rewrite Hvs. intros Hin. apply list_elem_of_fmap in Hin.
    destruct Hin as (w & -> & _). right. cbn [ap2m_idx].
    rewrite Hsl, Hpk. by eexists.
  - intros i p'. rewrite Hsl. destruct (slot d i) as [p|] eqn:Hp; [|done].
    intros [= <-]. cbn [active_vcpus with_active_vcpus].
    pose proof (consistent_count_range d i Hc) as Hr.
    pose proof (bound_count_le k (vcpus d)) as Hk.
    rewrite rebind_counter_wrap by (rewrite (HI i p Hp); lia).
    rewrite (HI i p Hp), Hvs.
    destruct (decide (i = k)) as [->|Hik].
    + rewrite rebind_delta_target, bound_count_all.
      rewrite wrap_int_id; unfold INT_MAX in *; lia.
    + rewrite rebind_delta_other, bound_count_none by done.
      rewrite wrap_int_id; unfold INT_MAX in *; lia.
Qed.


Lemma flush_consistent d d' log :
  altp2m_flush MAX_ALTP2M d = Done tt d' log ->
  consistent MAX_ALTP2M INVALID_ALTP2M d ->
  consistent MAX_ALTP2M INVALID_ALTP2M d'.
Proof.
  rewrite flush_run. intros Hrun Hc.
  destruct (altp2m_active d); [done|].
  destruct (for_range 0 MAX_ALTP2M flush_slot d) as [[] d1 l|] eqn:Hloop;
    [|done].
  assert (d' = d1) by congruence. subst d'. clear Hrun.
  pose proof (flush_loop_length _ _ _ _ _ Hloop) as Hlen1.
  destruct (flush_loop_outcome MAX_ALTP2M 0 d)
    as [(d2 & Hrun2 & _ & Hv & Hs & Hzero)|(Hrun2 & _)]; [|congruence].
  rewrite Hloop in Hrun2. injection Hrun2 as Hd2 _. subst d2.
  pose proof Hc as (Hlen & Hn & Hb & HI).
  assert (Hempty : forall i, slot d1 i = None).
  { intros i. rewrite Hs. case_decide; [done|].
    destruct (slot d i) as [p|] eqn:Hp; [|done].
    assert (i < MAX_ALTP2M)%nat; [|lia].
    apply (consistent_slot_lt d); [done|by eexists]. }
  split; [|split; [|split]].
  - congruence.
  - by rewrite Hv.
  - intros v. rewrite Hv. intros Hin.
    destruct (Hb v Hin) as [?|[p Hp]]; [by left|]. exfalso.
    assert (Hlt : (ap2m_idx v < MAX_ALTP2M)%nat).
    { apply (consistent_slot_lt d); [done|by eexists]. }
    pose proof (Hzero (ap2m_idx v) p ltac:(lia) Hp) as Hz.
    pose proof (HI _ p Hp) as Hcount.
    pose proof (bound_count_pos (ap2m_idx v) v (vcpus d) Hin eq_refl). lia.
  - intros i p. by rewrite Hempty.
Qed.




End Consistency.

Lemma dom_two_views_consistent :
  consistent xen_MAX_ALTP2M xen_INVALID_ALTP2M dom_two_views.
Proof.
  split; [reflexivity|]. split; [vm_compute; discriminate|]. split.
  - intros v Hv. right.
    repeat (apply elem_of_cons in Hv as [->|Hv]; [by eexists|]).
    by apply elem_of_nil in Hv.
  - intros i p.
    do 10 (destruct i as [|i];
           [vm_compute; intros Hp; try discriminate; by injection Hp as <-|]).
    vm_compute. discriminate.
Qed.



(** ** What a call leaves alone *)

Lemma init_helper_frame e j d rc d' log :
  altp2m_init_helper e j d = Done rc d' log ->
  vcpus d' = vcpus d /\ altp2m_active d' = altp2m_active d /\
  (rc <> 0 -> d' = d) /\
  (rc = 0 \/ rc = - ENOMEM \/ rc = p2m_init_one_rc e) /\
  (forall i, slot d' i = slot d i \/
     (i = j /\ rc = 0 /\ slot d i = None /\ slot d' i = Some fresh_view)).
Proof.
  rewrite init_helper_run. destruct (slot d j) as [p|] eqn:Hj; [done|].
  destruct (xzalloc_ok e).
  - case_decide as Hz.
    + intros [= <- <- _]. repeat split; try done; [by left|].
      intros i. rewrite slot_insert. case_decide as Hi; [|by left].
      destruct Hi as [<- _]. right. done.
    + intros [= <- <- _]. repeat split; try done; [by right; right|].
      intros i. by left.
  - intros [= <- <- _]. repeat split; try done; [by right; left|].
    intros i. by left.
Qed.

Lemma init_next_scan_frame e n : forall i d rc out d' log,
  init_next_scan e i n d = Done (rc, out) d' log ->
  vcpus d' = vcpus d /\ altp2m_active d' = altp2m_active d /\
  (rc <> 0 -> d' = d) /\
  (rc = 0 \/ rc = - EINVAL \/ rc = - ENOMEM \/ rc = p2m_init_one_rc e) /\
  (forall k, slot d' k = slot d k \/
     (out = Some k /\ rc = 0 /\ slot d k = None /\
      slot d' k = Some fresh_view)).
Proof.
  induction n as [|n IH]; intros i d rc out d' log.
  - intros [= <- <- <- _]. repeat split; try done; [by right; left|].
    intros k. by left.
  - simpl. mrun. destruct (slot d i) as [p|] eqn:Hp.
    + destruct (init_next_scan e (S i) n d) as [[rc1 out1] d1 l1|] eqn:H1;
        [|done].
      intros [= <- <- <- _]. by eapply IH.
    + destruct (altp2m_init_helper e i d) as [rc1 d1 l1|] eqn:H1; [|done].
      intros [= <- <- <- _].
      destruct (init_helper_frame _ _ _ _ _ _ H1)
        as (Hv & Ha & Hsame & Hrc & Hslots).
      repeat split; try done; [intuition|].
      intros k. destruct (Hslots k) as [?|(-> & ? & ? & ?)]; [by left|].
      by right.
Qed.

(** X6. No failure path mutates the domain: whenever
    [altp2m_switch_domain_altp2m_by_id], [altp2m_destroy_by_id],
    [altp2m_init_by_id] or [altp2m_init_next_available] returns a non-zero
    value, the domain is exactly as it was.  The switch fails only with
    [-EINVAL], the destroy only with [-EBUSY], the allocations only with
    [-EINVAL], [-ENOMEM] or the value of [p2m_init_one]. *)
Theorem failure_leaves_domain_unchanged MAX_ALTP2M INVALID_ALTP2M e d :
  (forall k rc d' log,
     altp2m_switch_domain_altp2m_by_id MAX_ALTP2M INVALID_ALTP2M k d
       = Done rc d' log ->
     rc <> 0 -> d' = d /\ rc = - EINVAL) /\
  (forall idx rc d' log,
     altp2m_destroy_by_id MAX_ALTP2M idx d = Done rc d' log ->
     rc <> 0 -> d' = d /\ rc = - EBUSY) /\
  (forall idx rc d' log,
     altp2m_init_by_id MAX_ALTP2M e idx d = Done rc d' log ->
     rc <> 0 ->
     d' = d /\
     (rc = - EINVAL \/ rc = - ENOMEM \/ rc = p2m_init_one_rc e)) /\
  (forall rc out d' log,
     altp2m_init_next_available MAX_ALTP2M e d = Done (rc, out) d' log ->
     rc <> 0 ->
     d' = d /\
     (rc = - EINVAL \/ rc = - ENOMEM \/ rc = p2m_init_one_rc e)).
Proof.
  split; [|split; [|split]].
  - intros k rc d' log. rewrite switch_domain_run.
    case_decide; [by intros [= <- <- _]|].
    destruct (slot d k); [|by intros [= <- <- _]].
    destruct (for_range _ _ _ d) as [[] d1 l|]; [|done].
    by intros [= <- _ _].
  - intros idx rc d' log. rewrite destroy_by_id_run.
    case_decide; [by intros [= <- <- _]|].
    destruct (slot d idx) as [p|]; [|by intros [= <- <- _]].
    case_decide; [by intros [= <- _ _]|by intros [= <- <- _]].
  - intros idx rc d' log. rewrite init_by_id_run.
    case_decide; [intros [= <- <- _]; by auto|].
    destruct (slot d idx) as [p|] eqn:Hp; [intros [= <- <- _]; by auto|].
    destruct (altp2m_init_helper e idx d) as [rc1 d1 l1|] eqn:Hh; [|done].
    intros [= <- <- _] Hrc.
    destruct (init_helper_frame _ _ _ _ _ _ Hh) as (_ & _ & Hsame & Hk & _).
    split; [by apply Hsame|]. intuition.
  - intros rc out d' log. rewrite init_next_available_run.
    destruct (init_next_scan e 0 MAX_ALTP2M d) as [[rc1 out1] d1 l1|] eqn:Hs;
      [|done].
    intros [= <- <- <- _] Hrc.
    destruct (init_next_scan_frame _ _ _ _ _ _ _ _ Hs)
      as (_ & _ & Hsame & Hk & _).
    split; [by apply Hsame|]. intuition.
Qed.

(** X7. [altp2m_destroy_by_id] changes at most the slot it is asked for,
    never slot 0, and never a slot whose view still has vcpus; the vcpus
    and the activation flag are untouched. *)
Theorem destroy_by_id_frame MAX_ALTP2M idx d rc d' log :
  altp2m_destroy_by_id MAX_ALTP2M idx d = Done rc d' log ->
  vcpus d' = vcpus d /\
  altp2m_active d' = altp2m_active d /\
  slot d' 0 = slot d 0 /\
  (forall i, i <> idx -> slot d' i = slot d i) /\
  (forall i p, slot d i = Some p -> active_vcpus p <> 0 ->
     slot d' i = Some p) /\
  (forall i, slot d i = None -> slot d' i = None).
Proof.
  rewrite destroy_by_id_run.
  case_decide as Hidx; [by intros [= _ <- _]|].
  destruct (slot d idx) as [p|] eqn:Hp; [|by intros [= _ <- _]].
  case_decide as Hz; [|by intros [= _ <- _]].
  intros [= _ <- _]. split; [done|]. split; [done|]. split; [|split; [|split]].
  - apply slot_insert_ne. tauto.
  - intros i Hne. by apply slot_insert_ne.
  - intros i q Hq Hnz. rewrite slot_insert. case_decide as Hi; [|done].
    destruct Hi as [<- _]. congruence.
  - intros i Hi. rewrite slot_insert. by case_decide.
Qed.

Lemma destroy_by_id_frame_witness :
  exists d' log,
    altp2m_destroy_by_id xen_MAX_ALTP2M 1 dom_two_views = Done 0 d' log /\
    slot d' 0 = view 2 /\ vcpus d' = vcpus dom_two_views.
Proof.
  destruct (altp2m_destroy_by_id xen_MAX_ALTP2M 1 dom_two_views)
    as [rc d' log|f] eqn:Hrun; [|by vm_compute in Hrun].
  destruct (destroy_by_id_frame _ _ _ _ _ _ Hrun) as (Hv & _ & H0 & _).
  assert (rc = 0) by (vm_compute in Hrun; congruence). subst rc.
  exists d', log. split; [reflexivity|]. split; [exact H0|exact Hv].
Defined.

(** X8. The allocating entry points never touch an existing view: after
    [altp2m_init_by_id] or [altp2m_init_next_available] every slot that
    was occupied holds the same view with the same counter, the vcpus and
    the activation flag are untouched, and a slot that changed was empty
    and now holds a fresh view with counter zero. *)
Theorem init_frame MAX_ALTP2M e d :
  (forall idx rc d' log,
     altp2m_init_by_id MAX_ALTP2M e idx d = Done rc d' log ->
     vcpus d' = vcpus d /\ altp2m_active d' = altp2m_active d /\
     (forall i p, slot d i = Some p -> slot d' i = Some p) /\
     (forall i, slot d' i = slot d i \/
        (i = idx /\ rc = 0 /\ slot d i = None /\
         slot d' i = Some fresh_view))) /\
  (forall rc out d' log,
     altp2m_init_next_available MAX_ALTP2M e d = Done (rc, out) d' log ->
     vcpus d' = vcpus d /\ altp2m_active d' = altp2m_active d /\
     (forall i p, slot d i = Some p -> slot d' i = Some p) /\
     (forall i, slot d' i = slot d i \/
        (out = Some i /\ rc = 0 /\ slot d i = None /\
         slot d' i = Some fresh_view))).
Proof.
  split.
  - intros idx rc d' log. rewrite init_by_id_run.
    assert (Hsame : forall i,
      slot d i = slot d i \/
      (i = idx /\ - EINVAL = 0 /\ slot d i = None /\
       slot d i = Some fresh_view)) by (by left).
    case_decide; [by intros [= <- <- _]|].
    destruct (slot d idx) as [p|] eqn:Hp; [by intros [= <- <- _]|].
    destruct (altp2m_init_helper e idx d) as [rc1 d1 l1|] eqn:Hh; [|done].
    intros [= <- <- _].
    destruct (init_helper_frame _ _ _ _ _ _ Hh) as (Hv & Ha & _ & _ & Hs).
    split; [done|]. split; [done|]. split; [|done].
    intros i q Hq. destruct (Hs i) as [->|(_ & _ & Hn & _)]; congruence.
  - intros rc out d' log. rewrite init_next_available_run.
    destruct (init_next_scan e 0 MAX_ALTP2M d) as [[rc1 out1] d1 l1|] eqn:Hs;
      [|done].
    intros [= <- <- <- _].
    destruct (init_next_scan_frame _ _ _ _ _ _ _ _ Hs)
      as (Hv & Ha & _ & _ & Hsl).
    split; [done|]. split; [done|]. split; [|done].
    intros i q Hq. destruct (Hsl i) as [->|(_ & _ & Hn & _)]; congruence.
Qed.

Lemma failure_leaves_domain_unchanged_witness :
  altp2m_destroy_by_id xen_MAX_ALTP2M 1 dom_switched
    = Done (- EBUSY) dom_switched
        [EvDomainPauseExceptSelf; EvLock; EvUnlock; EvDomainUnpauseExceptSelf].
Proof.
  destruct (altp2m_destroy_by_id xen_MAX_ALTP2M 1 dom_switched)
    as [rc d' log|f] eqn:Hrun; [|by vm_compute in Hrun].
  destruct (failure_leaves_domain_unchanged xen_MAX_ALTP2M xen_INVALID_ALTP2M
              env_ok dom_switched) as (_ & Hdestroy & _).
  assert (Hrc : rc <> 0) by (vm_compute in Hrun; injection Hrun as <- _ _; done).
  destruct (Hdestroy 1%nat rc d' log Hrun Hrc) as [-> ->].
  f_equal. vm_compute in Hrun. by injection Hrun as <-.
Defined.

Lemma init_frame_witness :
  exists d' log,
    altp2m_init_by_id xen_MAX_ALTP2M env_ok 2 dom_two_views = Done 0 d' log /\
    slot d' 0 = view 2 /\ slot d' 1 = view 0 /\
    vcpus d' = vcpus dom_two_views.
Proof.
  destruct (altp2m_init_by_id xen_MAX_ALTP2M env_ok 2 dom_two_views)
    as [rc d' log|f] eqn:Hrun; [|by vm_compute in Hrun].
  destruct (init_frame xen_MAX_ALTP2M env_ok dom_two_views) as [Hinit _].
  destruct (Hinit 2%nat rc d' log Hrun) as (Hv & _ & Hkeep & _).
  assert (rc = 0) by (vm_compute in Hrun; congruence). subst rc.
  exists d', log. split; [reflexivity|].
  split; [by apply Hkeep|]. split; [by apply Hkeep|exact Hv].
Defined.

(** ** Allocation and destruction compose *)

(** X9. [altp2m_init_by_id] at an empty slot of the table, with memory
    available and a successful [p2m_init_one], returns 0 and installs a
    fresh view with counter zero in that slot, every other slot being as
    before.  Destroying that view right away (index not 0) returns 0 and
    gives back the domain the allocation started from. *)
Theorem init_destroy_roundtrip MAX_ALTP2M e idx d :
  (idx < MAX_ALTP2M)%nat ->
  (idx < length (altp2m_p2m d))%nat ->
  slot d idx = None ->
  xzalloc_ok e = true ->
  p2m_init_one_rc e = 0 ->
  (exists d',
     altp2m_init_by_id MAX_ALTP2M e idx d
       = Done 0 d'
           [EvLock; EvXzalloc idx true; EvInitOne idx 0; EvStoreView idx;
            EvUnlock] /\
     slot d' idx = Some fresh_view /\
     (forall i, i <> idx -> slot d' i = slot d i) /\
     (idx <> 0%nat ->
      altp2m_destroy_by_id MAX_ALTP2M idx d'
        = Done 0 d
            ([EvDomainPauseExceptSelf; EvLock] ++ flush_events idx
             ++ [EvUnlock; EvDomainUnpauseExceptSelf]))).
Proof.
  intros Hm Hlen Hs Hx Hrc.
  rewrite init_by_id_run, init_helper_run, Hs, Hx.
  rewrite decide_False by lia. rewrite decide_True by done.
  eexists. split; [reflexivity|]. split; [|split].
  - rewrite slot_insert. by rewrite decide_True.
  - intros i Hne. by apply slot_insert_ne.
  - intros H0. rewrite destroy_by_id_run.
    rewrite decide_False by lia.
    rewrite slot_insert. rewrite decide_True by done.
    cbn [fresh_view active_vcpus]. rewrite decide_True by done.
    f_equal. unfold set_slots. cbn [altp2m_p2m altp2m_active vcpus].
    rewrite list_insert_insert_eq.
    exact (store_null_empty d idx Hs).
Qed.

Lemma init_destroy_roundtrip_witness :
  exists d',
    altp2m_init_by_id xen_MAX_ALTP2M env_ok 2 dom_two_views
      = Done 0 d'
          [EvLock; EvXzalloc 2 true; EvInitOne 2 0; EvStoreView 2; EvUnlock] /\
    slot d' 2 = Some fresh_view /\
    altp2m_destroy_by_id xen_MAX_ALTP2M 2 d'
      = Done 0 dom_two_views
          [EvDomainPauseExceptSelf; EvLock; EvTeardownOne 2; EvXfree 2;
           EvStoreNull 2; EvUnlock; EvDomainUnpauseExceptSelf].
Proof.
  destruct (init_destroy_roundtrip xen_MAX_ALTP2M env_ok 2 dom_two_views)
    as (d' & Hinit & Hs & _ & Hdestroy).
  - vm_compute. lia.
  - vm_compute. lia.
  - reflexivity.
  - reflexivity.
  - reflexivity.
  - exists d'. split; [exact Hinit|]. split; [exact Hs|].
    apply Hdestroy. discriminate.
Defined.

(** X10. [altp2m_init_next_available] is [altp2m_init_by_id] at the lowest
    empty index: same return value, same resulting domain, same calls;
    it additionally stores that index through [idx]. *)
Theorem init_next_available_as_init_by_id MAX_ALTP2M e d j :
  (j < MAX_ALTP2M)%nat ->
  slot d j = None ->
  (forall j', (j' < j)%nat -> is_Some (slot d j')) ->
  altp2m_init_next_available MAX_ALTP2M e d =
  match altp2m_init_by_id MAX_ALTP2M e j d with
  | Done rc d' log => Done (rc, Some j) d' log
  | Fault f => Fault f
  end.
Proof.
  intros Hj Hfree Hbelow.
  rewrite init_next_available_run, init_by_id_run, Hfree.
  rewrite (init_next_scan_free e MAX_ALTP2M 0 d j);
    [|lia|done|intros; apply Hbelow; lia].
  rewrite decide_False by lia.
  by destruct (altp2m_init_helper e j d).
Qed.

Lemma init_next_available_as_init_by_id_witness :
  altp2m_init_next_available xen_MAX_ALTP2M env_ok dom_two_views =
  match altp2m_init_by_id xen_MAX_ALTP2M env_ok 2 dom_two_views with
  | Done rc d' log => Done (rc, Some 2%nat) d' log
  | Fault f => Fault f
  end.
Proof.
  apply (init_next_available_as_init_by_id xen_MAX_ALTP2M env_ok
           dom_two_views 2).
  - vm_compute. lia.
  - reflexivity.
  - intros j' Hj'. do 2 (destruct j' as [|j']; [by eexists|]). lia.
Defined.

(** ** Repeating and composing switches *)

Lemma switch_loop_noop MAX_ALTP2M INVALID_ALTP2M k vs : forall s d,
  drop s (vcpus d) = vs ->
  Forall (fun v => ap2m_idx v = k) vs ->
  for_range s (length vs) (switch_vcpu MAX_ALTP2M INVALID_ALTP2M k) d
    = Done tt d [].
Proof.
  induction vs as [|v vs IH]; intros s d Hdrop Hall; [done|].
  apply drop_cons_lookup in Hdrop as (Hv & Hdrop & _).
  pose proof (List.Forall_inv Hall) as Hk.
  pose proof (List.Forall_inv_tail Hall) as Hall'.
  simpl length. rewrite for_range_S, (switch_vcpu_run _ _ k s d v Hv).
  rewrite decide_True by done. by rewrite (IH (S s) d Hdrop Hall').
Qed.

(** X11. A switch to the view every vcpu is already bound to returns 0
    and changes nothing; so a switch that has succeeded can be repeated
    without effect on the domain. *)
Theorem switch_to_current_view MAX_ALTP2M INVALID_ALTP2M k d :
  (k < MAX_ALTP2M)%nat ->
  is_Some (slot d k) ->
  ((forall v, v ∈ vcpus d -> ap2m_idx v = k) ->
   altp2m_switch_domain_altp2m_by_id MAX_ALTP2M INVALID_ALTP2M k d
   = Done 0 d
       [EvDomainPauseExceptSelf; EvLock; EvUnlock; EvDomainUnpauseExceptSelf]) /\
  (forall d' log,
     altp2m_switch_domain_altp2m_by_id MAX_ALTP2M INVALID_ALTP2M k d
       = Done 0 d' log ->
     altp2m_switch_domain_altp2m_by_id MAX_ALTP2M INVALID_ALTP2M k d'
     = Done 0 d'
         [EvDomainPauseExceptSelf; EvLock; EvUnlock;
          EvDomainUnpauseExceptSelf]).
Proof.
  intros Hk [pk Hpk].
  assert (Hnoop : forall d0, is_Some (slot d0 k) ->
            (forall v, v ∈ vcpus d0 -> ap2m_idx v = k) ->
            altp2m_switch_domain_altp2m_by_id MAX_ALTP2M INVALID_ALTP2M k d0
            = Done 0 d0
                [EvDomainPauseExceptSelf; EvLock; EvUnlock;
                 EvDomainUnpauseExceptSelf]).
  { intros d0 [p0 Hp0] Hall. rewrite switch_domain_run, Hp0.
    rewrite decide_False by lia.
    rewrite (switch_loop_noop _ _ k (vcpus d0) 0 d0 eq_refl); [done|].
    apply (proj2 (list.Forall_forall _ _)). exact Hall. }
  split.
  - apply Hnoop. by eexists.
  - intros d' log. rewrite switch_domain_run, Hpk.
    rewrite decide_False by lia.
    destruct (for_range _ _ _ d) as [[] d1 l|] eqn:Hloop; [|done].
    intros [= <- _].
    destruct (switch_loop_done MAX_ALTP2M INVALID_ALTP2M k (vcpus d) 0 d d1 l
                eq_refl Hloop) as (_ & _ & Hvs & Hsl & _).
    apply Hnoop.
    + rewrite Hsl, Hpk. by eexists.
    + intros v. rewrite Hvs. simpl. intros Hin.
      apply list_elem_of_fmap in Hin. by destruct Hin as (w & -> & _).
Qed.

Lemma switch_to_current_view_witness :
  altp2m_switch_domain_altp2m_by_id xen_MAX_ALTP2M xen_INVALID_ALTP2M 1
    dom_switched
  = Done 0 dom_switched
      [EvDomainPauseExceptSelf; EvLock; EvUnlock; EvDomainUnpauseExceptSelf].
Proof.
  apply (switch_to_current_view xen_MAX_ALTP2M xen_INVALID_ALTP2M 1
           dom_switched).
  - vm_compute. lia.
  - by eexists.
  - intros v Hv.
    repeat (apply elem_of_cons in Hv as [->|Hv]; [done|]).
    by apply elem_of_nil in Hv.
Defined.

Lemma slots_ext (l1 l2 : list (option p2m_domain)) :
  length l1 = length l2 ->
  (forall i, match l1 !! i with Some e => e | None => None end
             = match l2 !! i with Some e => e | None => None end) ->
  l1 = l2.
Proof.
  intros Hlen Hs. apply list_eq. intros i.
  destruct (l1 !! i) as [e1|] eqn:H1; destruct (l2 !! i) as [e2|] eqn:H2.
  - specialize (Hs i). rewrite H1, H2 in Hs. by subst.
  - apply lookup_lt_Some in H1. apply lookup_ge_None in H2. lia.
  - apply lookup_ge_None in H1. apply lookup_lt_Some in H2. lia.
  - done.
Qed.

Lemma domain_ext d1 d2 :
  length (altp2m_p2m d1) = length (altp2m_p2m d2) ->
  (forall i, slot d1 i = slot d2 i) ->
  altp2m_active d1 = altp2m_active d2 ->
  vcpus d1 = vcpus d2 ->
  d1 = d2.
Proof.
  destruct d1 as [s1 a1 v1], d2 as [s2 a2 v2]. unfold slot. cbn.
  intros Hlen Hs -> ->. f_equal. by apply slots_ext.
Qed.

Section SwitchCompose.
Variables MAX_ALTP2M INVALID_ALTP2M : nat.
Hypothesis MAX_le_INVALID : (MAX_ALTP2M <= INVALID_ALTP2M)%nat.

(** What a successful switch makes of a consistent domain. *)
Lemma switch_consistent_result k d d' log :
  consistent MAX_ALTP2M INVALID_ALTP2M d ->
  altp2m_switch_domain_altp2m_by_id MAX_ALTP2M INVALID_ALTP2M k d
    = Done 0 d' log ->
  altp2m_active d' = altp2m_active d /\
  vcpus d' = map (fun _ => mk_vcpu k) (vcpus d) /\
  length (altp2m_p2m d') = length (altp2m_p2m d) /\
  forall i, slot d' i =
    (fun p => with_active_vcpus
                (if decide (i = k) then Z.of_nat (length (vcpus d)) else 0) p)
      <$> slot d i.
Proof.
  intros Hc Hrun.
  pose proof (switch_consistent MAX_ALTP2M INVALID_ALTP2M MAX_le_INVALID
                k d 0 d' log Hrun Hc) as Hc'.
  rewrite switch_domain_run in Hrun.
  destruct (decide (MAX_ALTP2M <= k)%nat); [done|].
  destruct (slot d k) as [pk|] eqn:Hpk; [|done].
  destruct (for_range _ _ _ d) as [[] d1 l|] eqn:Hloop; [|done].
  assert (d' = d1) by congruence. subst d'. clear Hrun.
  pose proof (switch_loop_length _ _ _ _ _ _ _ _ Hloop) as Hlen1.
  destruct (switch_loop_done MAX_ALTP2M INVALID_ALTP2M k (vcpus d) 0 d d1 l
              eq_refl Hloop) as (_ & Ha & Hvs & Hsl & _).
  simpl in Hvs. split; [done|]. split; [done|]. split; [done|].
  intros i. destruct Hc' as (_ & _ & _ & HI').
  specialize (HI' i). rewrite Hsl in *.
  destruct (slot d i) as [p|]; [|done]. simpl in *.
  specialize (HI' _ eq_refl). simpl in HI'.
  unfold with_active_vcpus. f_equal. f_equal. rewrite HI', Hvs.
  case_decide.
  - subst i. by rewrite bound_count_all.
  - by rewrite bound_count_none.
Qed.

(** X12. In a consistent domain a switch to [k] followed by a switch to
    [j] ends in the same domain as the switch to [j] alone. *)
Theorem switch_switch k j d d1 d2 log1 log2 :
  consistent MAX_ALTP2M INVALID_ALTP2M d ->
  altp2m_switch_domain_altp2m_by_id MAX_ALTP2M INVALID_ALTP2M k d
    = Done 0 d1 log1 ->
  altp2m_switch_domain_altp2m_by_id MAX_ALTP2M INVALID_ALTP2M j d1
    = Done 0 d2 log2 ->
  altp2m_switch_domain_altp2m_by_id MAX_ALTP2M INVALID_ALTP2M j d
    = Done 0 d2 log2.
Proof.
  intros Hc H1 H2.
  pose proof (switch_consistent MAX_ALTP2M INVALID_ALTP2M MAX_le_INVALID
                k d 0 d1 log1 H1 Hc) as Hc1.
  destruct (switch_consistent_result k d d1 log1 Hc H1)
    as (Ha1 & Hv1 & Hl1 & Hs1).
  destruct (switch_consistent_result j d1 d2 log2 Hc1 H2)
    as (Ha2 & Hv2 & Hl2 & Hs2).
  assert (Hlog : forall k0 d0 d0' log0,
            altp2m_switch_domain_altp2m_by_id MAX_ALTP2M INVALID_ALTP2M k0 d0
              = Done 0 d0' log0 ->
            (k0 < MAX_ALTP2M)%nat /\ is_Some (slot d0 k0) /\
            log0 = [EvDomainPauseExceptSelf; EvLock; EvUnlock;
                    EvDomainUnpauseExceptSelf]).
  { intros k0 d0 d0' log0. rewrite switch_domain_run.
    destruct (decide (MAX_ALTP2M <= k0)%nat); [done|].
    destruct (slot d0 k0) as [p|] eqn:Hp; [|done].
    destruct (for_range _ _ _ d0) as [[] d3 l|] eqn:Hloop; [|done].
    intros [= _ <-].
    destruct (switch_loop_done MAX_ALTP2M INVALID_ALTP2M k0 (vcpus d0) 0 d0
                d3 l eq_refl Hloop) as (-> & _).
    split; [lia|]. split; [by eexists|done]. }
  destruct (Hlog _ _ _ _ H1) as (Hkm & Hks & _).
  destruct (Hlog _ _ _ _ H2) as (Hjm & Hjs1 & ->).
  assert (Hjs : is_Some (slot d j)).
  { destruct Hjs1 as [p Hp]. rewrite Hs1 in Hp.
    destruct (slot d j); [by eexists|done]. }
  assert (Hbound : Forall (bound_to_view MAX_ALTP2M INVALID_ALTP2M d)
                     (vcpus d)).
  { destruct (decide (Forall (bound_to_view MAX_ALTP2M INVALID_ALTP2M d)
                        (vcpus d))) as [|Hnot]; [done|].
    apply (switch_domain_outcome MAX_ALTP2M INVALID_ALTP2M MAX_le_INVALID
             k d Hkm Hks) in Hnot.
    by rewrite H1 in Hnot. }
  destruct (proj1 (switch_domain_outcome MAX_ALTP2M INVALID_ALTP2M
                     MAX_le_INVALID j d Hjm Hjs) Hbound) as [d3 H3].
  rewrite H3. f_equal.
  destruct (switch_consistent_result j d d3 _ Hc H3)
    as (Ha3 & Hv3 & Hl3 & Hs3).
  apply domain_ext.
  - congruence.
  - intros i. rewrite Hs2, Hs3, Hs1, Hv1, length_map.
    by destruct (slot d i).
  - congruence.
  - rewrite Hv2, Hv3, Hv1. rewrite <- list_fmap_compose. done.
Qed.

End SwitchCompose.

Lemma dom_switched_consistent :
  consistent xen_MAX_ALTP2M xen_INVALID_ALTP2M dom_switched.
Proof.
  split; [reflexivity|]. split; [vm_compute; discriminate|]. split.
  - intros v Hv. right.
    repeat (apply elem_of_cons in Hv as [->|Hv]; [by eexists|]).
    by apply elem_of_nil in Hv.
  - intros i p.
    do 10 (destruct i as [|i];
           [vm_compute; intros Hp; try discriminate; by injection Hp as <-|]).
    vm_compute. discriminate.
Qed.

(** From [dom_switched] (both vcpus on view 1), switching to view 0 and
    then to view 1 ends where the switch to view 1 alone ends: in
    [dom_switched]. *)
Lemma switch_switch_witness :
  altp2m_switch_domain_altp2m_by_id xen_MAX_ALTP2M xen_INVALID_ALTP2M 0
    dom_switched
  = Done 0 dom_two_views
      [EvDomainPauseExceptSelf; EvLock; EvUnlock; EvDomainUnpauseExceptSelf] /\
  altp2m_switch_domain_altp2m_by_id xen_MAX_ALTP2M xen_INVALID_ALTP2M 1
    dom_switched
  = Done 0 dom_switched
      [EvDomainPauseExceptSelf; EvLock; EvUnlock; EvDomainUnpauseExceptSelf].
Proof.
  assert (H1 : altp2m_switch_domain_altp2m_by_id xen_MAX_ALTP2M
                 xen_INVALID_ALTP2M 0 dom_switched
               = Done 0 dom_two_views
                   [EvDomainPauseExceptSelf; EvLock; EvUnlock;
                    EvDomainUnpauseExceptSelf])
    by (vm_compute; reflexivity).
  assert (H2 : altp2m_switch_domain_altp2m_by_id xen_MAX_ALTP2M
                 xen_INVALID_ALTP2M 1 dom_two_views
               = Done 0 dom_switched
                   [EvDomainPauseExceptSelf; EvLock; EvUnlock;
                    EvDomainUnpauseExceptSelf])
    by (vm_compute; reflexivity).
  split; [exact H1|].
  exact (switch_switch xen_MAX_ALTP2M xen_INVALID_ALTP2M xen_MAX_le_INVALID
           0 1 dom_switched dom_two_views dom_switched _ _
           dom_switched_consistent H1 H2).
Defined.

(** ** Flushing and tearing down again *)

Lemma flush_loop_empty n : forall lo d,
  (forall i, (lo <= i < lo + n)%nat -> slot d i = None) ->
  for_range lo n flush_slot d = Done tt d [].
Proof.
  induction n as [|n IH]; intros lo d Hempty; [done|].
  rewrite for_range_S, flush_slot_run, (Hempty lo) by lia.
  rewrite IH; [done|]. intros i Hi. apply Hempty. lia.
Qed.

(** X13. After a flush that completed, another flush only takes and
    releases the lock: nothing is torn down or freed twice and the domain
    stays as the first flush left it. *)
Theorem flush_twice MAX_ALTP2M d d' log :
  altp2m_flush MAX_ALTP2M d = Done tt d' log ->
  altp2m_flush MAX_ALTP2M d' = Done tt d' [EvLock; EvUnlock].
Proof.
  intros Hrun.
  destruct (flush_outcome MAX_ALTP2M d) as (_ & _ & _ & Hpost).
  destruct (Hpost d' log Hrun) as (Hact & _ & Hempty & _ & Hact' & _).
  rewrite flush_run, Hact', Hact.
  rewrite flush_loop_empty; [done|]. intros i Hi. apply Hempty. lia.
Qed.

Lemma flush_twice_witness :
  exists d' log,
    altp2m_flush xen_MAX_ALTP2M dom_inactive = Done tt d' log /\
    altp2m_flush xen_MAX_ALTP2M d' = Done tt d' [EvLock; EvUnlock].
Proof.
  destruct (flush_outcome xen_MAX_ALTP2M dom_inactive)
    as (_ & _ & Htotal & _).
  destruct Htotal as (d' & log & Hrun).
  - reflexivity.
  - intros i p Hi.
    do 10 (destruct i as [|i];
           [vm_compute; intros Hp; try discriminate; by injection Hp as <-|]).
    vm_compute in Hi. lia.
  - exists d', log. split; [exact Hrun|].
    exact (flush_twice xen_MAX_ALTP2M dom_inactive d' log Hrun).
Defined.

(** X14. [altp2m_teardown] returns the domain as it received it: the
    slots still hold the views it has torn down and freed, so a second
    call tears down and frees every one of them again. *)
Theorem teardown_keeps_table MAX_ALTP2M d :
  altp2m_teardown MAX_ALTP2M d
  = Done tt d (flat_map teardown_events (occupied_below d MAX_ALTP2M)) /\
  (altp2m_teardown MAX_ALTP2M ;; altp2m_teardown MAX_ALTP2M) d
  = Done tt d
      (flat_map teardown_events (occupied_below d MAX_ALTP2M)
       ++ flat_map teardown_events (occupied_below d MAX_ALTP2M)).
Proof.
  unfold bind, altp2m_teardown. rewrite !teardown_loop_run. done.
Qed.

(** ** Locking *)

Lemma lock_discipline_flush_events l rest :
  lock_discipline true (flat_map flush_events l ++ rest)
  = lock_discipline true rest.
Proof. induction l as [|i l IH]; [done|]. simpl. exact IH. Qed.

Lemma lock_discipline_teardown_events held l rest :
  lock_discipline held (flat_map teardown_events l ++ rest)
  = lock_discipline held rest.
Proof. induction l as [|i l IH]; [done|]. simpl. exact IH. Qed.

Lemma init_helper_under_lock e j d rc d' log rest :
  altp2m_init_helper e j d = Done rc d' log ->
  lock_discipline true (log ++ rest) = lock_discipline true rest.
Proof.
  rewrite init_helper_run. destruct (slot d j); [done|].
  destruct (xzalloc_ok e).
  - case_decide; by intros [= _ _ <-].
  - by intros [= _ _ <-].
Qed.

Lemma init_next_scan_under_lock e n : forall i d r d' log rest,
  init_next_scan e i n d = Done r d' log ->
  lock_discipline true (log ++ rest) = lock_discipline true rest.
Proof.
  induction n as [|n IH]; intros i d r d' log rest.
  - by intros [= _ _ <-].
  - simpl. mrun. destruct (slot d i) as [p|].
    + destruct (init_next_scan e (S i) n d) as [r1 d1 l1|] eqn:H1; [|done].
      intros [= _ _ <-]. by eapply IH.
    + destruct (altp2m_init_helper e i d) as [rc d1 l1|] eqn:H1; [|done].
      intros [= _ _ <-]. rewrite app_nil_r.
      by eapply init_helper_under_lock.
Qed.

(** X15. Whatever entry point runs to completion, the log it leaves shows
    the altp2m lock taken and released alternately and free at the end,
    and every store into the slot table made while the lock is held. *)
Theorem calls_respect_lock MAX_ALTP2M INVALID_ALTP2M c d d' log :
  run_call MAX_ALTP2M INVALID_ALTP2M c d = Done tt d' log ->
  lock_discipline false log = true.
Proof.
  destruct c as [|e idx|e|v|current v|idx|idx| |];
    cbn [run_call]; unfold bind, ret.
  - unfold altp2m_init. mrun. by intros [= _ <-].
  - rewrite init_by_id_run.
    destruct (decide (MAX_ALTP2M <= idx)%nat); [by intros [= _ <-]|].
    destruct (slot d idx) as [p|] eqn:Hp; [by intros [= _ <-]|].
    destruct (altp2m_init_helper e idx d) as [rc d1 l|] eqn:Hh; [|done].
    intros [= _ <-]. rewrite app_nil_r. cbn [lock_discipline negb andb].
    by rewrite (init_helper_under_lock _ _ _ _ _ _ _ Hh).
  - rewrite init_next_available_run.
    destruct (init_next_scan e 0 MAX_ALTP2M d) as [r d1 l|] eqn:Hs; [|done].
    intros [= _ <-]. rewrite app_nil_r. cbn [lock_discipline negb andb].
    by rewrite (init_next_scan_under_lock _ _ _ _ _ _ _ _ Hs).
  - rewrite vcpu_initialize_run.
    destruct (vcpus d !! v); [|done].
    repeat (case_decide; [done|]).
    destruct (slot d 0); [|done]. by intros [= _ <-].
  - destruct (vcpus d !! v) as [x|] eqn:Hx.
    + rewrite (vcpu_destroy_run _ _ _ _ _ x Hx). cbn zeta.
      assert (Hp : lock_discipline false (pause_log current v) = true).
      { unfold pause_log. by case_bool_decide. }
      repeat (case_decide; [done || by intros [= _ <-]|]).
      destruct (slot d (ap2m_idx x)); by intros [= _ <-].
    + unfold altp2m_vcpu_destroy, altp2m_get_altp2m.
      destruct (bool_decide (Some v <> current)); mrun; done.
  - rewrite switch_domain_run.
    destruct (decide (MAX_ALTP2M <= idx)%nat); [by intros [= _ <-]|].
    destruct (slot d idx) as [p|] eqn:Hp; [|by intros [= _ <-]].
    destruct (for_range _ _ _ d) as [[] d1 l|] eqn:Hloop; [|done].
    destruct (switch_loop_done MAX_ALTP2M INVALID_ALTP2M idx (vcpus d) 0 d
                d1 l eq_refl Hloop) as (-> & _).
    by intros [= _ <-].
  - rewrite destroy_by_id_run.
    case_decide; [by intros [= _ <-]|].
    destruct (slot d idx) as [p|]; [|by intros [= _ <-]].
    case_decide; by intros [= _ <-].
  - rewrite flush_run. destruct (altp2m_active d); [done|].
    destruct (flush_loop_outcome MAX_ALTP2M 0 d)
      as [(d2 & Hrun2 & _)|(Hrun2 & _)]; rewrite Hrun2; [|done].
    intros [= _ <-]. cbn [lock_discipline negb andb].
    by rewrite lock_discipline_flush_events.
  - unfold altp2m_teardown. rewrite teardown_loop_run.
    intros [= _ <-].
    rewrite <- (app_nil_r (flat_map _ _)).
    by rewrite lock_discipline_teardown_events.
Qed.

Lemma calls_respect_lock_witness :
  exists d' log,
    run_call xen_MAX_ALTP2M xen_INVALID_ALTP2M (Call_destroy_by_id 1)
      dom_two_views = Done tt d' log /\
    lock_discipline false log = true.
Proof.
  destruct (run_call xen_MAX_ALTP2M xen_INVALID_ALTP2M (Call_destroy_by_id 1)
              dom_two_views) as [[] d' log|f] eqn:Hrun;
    [|by vm_compute in Hrun].
  exists d', log. split; [reflexivity|].
  exact (calls_respect_lock _ _ _ _ _ _ Hrun).
Defined.

(** ** Switching and initialising in a consistent domain *)

Lemma wrap_int_succ_ne c : - 2 ^ 31 <= c <= INT_MAX -> wrap_int (c + 1) <> c.
Proof.
  intros Hc. destruct (decide (c = INT_MAX)) as [->|Hne].
  - vm_compute. discriminate.
  - rewrite wrap_int_id; unfold INT_MAX in *; lia.
Qed.

Section ConsistentUse.
Variables MAX_ALTP2M INVALID_ALTP2M : nat.
Hypothesis MAX_le_INVALID : (MAX_ALTP2M <= INVALID_ALTP2M)%nat.

(** X16. In a consistent domain in which no vcpu is unbound, a switch to
    any occupied slot below [MAX_ALTP2M] completes with 0: it does not
    fault, binds every vcpu to the target and leaves the domain
    consistent. *)
Theorem switch_completes_when_bound k d :
  consistent MAX_ALTP2M INVALID_ALTP2M d ->
  (forall v, v ∈ vcpus d -> ap2m_idx v <> INVALID_ALTP2M) ->
  (k < MAX_ALTP2M)%nat ->
  is_Some (slot d k) ->
  exists d',
    altp2m_switch_domain_altp2m_by_id MAX_ALTP2M INVALID_ALTP2M k d
    = Done 0 d'
        [EvDomainPauseExceptSelf; EvLock; EvUnlock; EvDomainUnpauseExceptSelf] /\
    consistent MAX_ALTP2M INVALID_ALTP2M d' /\
    vcpus d' = map (fun _ => mk_vcpu k) (vcpus d).
Proof.
  intros Hc Hbound Hk Hs.
  assert (Hall : Forall (bound_to_view MAX_ALTP2M INVALID_ALTP2M d) (vcpus d)).
  { apply (proj2 (list.Forall_forall _ _)). intros v Hv.
    destruct Hc as (Hlen & _ & Hb & _).
    destruct (Hb v Hv) as [Hinv|[p Hp]]; [by apply Hbound in Hinv|].
    split; [by apply Hbound|]. split; [|by eexists].
    rewrite <- Hlen. by eapply slot_Some_lt. }
  destruct (proj1 (switch_domain_outcome MAX_ALTP2M INVALID_ALTP2M
                     MAX_le_INVALID k d Hk Hs) Hall) as [d' Hrun].
  exists d'. split; [exact Hrun|]. split.
  - by eapply switch_consistent.
  - by destruct (switch_consistent_result MAX_ALTP2M INVALID_ALTP2M
                   MAX_le_INVALID k d d' _ Hc Hrun) as (_ & ? & _).
Qed.

(** X17. [altp2m_vcpu_initialize] does not unbind: applied to a vcpu that
    is already bound to a view in a consistent domain, it leaves a
    counter that no longer matches the vcpus bound to its view, so I2 is
    lost. *)
Theorem vcpu_initialize_bound_loses_I2 n d v d' log :
  consistent MAX_ALTP2M INVALID_ALTP2M d ->
  vcpus d !! n = Some v ->
  ap2m_idx v <> INVALID_ALTP2M ->
  altp2m_vcpu_initialize MAX_ALTP2M INVALID_ALTP2M n d = Done tt d' log ->
  ~ I2 d'.
Proof.
  intros Hc Hv Hbound. rewrite vcpu_initialize_run, Hv.
  case_decide as H0; [done|]. case_decide; [done|].
  destruct (slot d 0) as [p0|] eqn:Hp0; [|done].
  intros [= <- _] HI'. pose proof Hc as (Hlen & Hn & Hb & HI).
  assert (Hin : v ∈ vcpus d) by (apply list_elem_of_lookup; eauto).
  destruct (Hb v Hin) as [?|[pj Hpj]]; [done|].
  assert (Hr0 : 0 <= Z.of_nat (bound_count 0 (vcpus d)) <= INT_MAX).
  { pose proof (bound_count_le 0 (vcpus d)). lia. }
  assert (H0lt : (0 < length (altp2m_p2m d))%nat) by (by eapply slot_Some_lt).
  destruct (decide (ap2m_idx v = 0%nat)) as [Hz|Hnz].
  - specialize (HI' 0%nat
      (with_active_vcpus (atomic_inc (active_vcpus p0)) p0)).
    unfold slot in HI' at 1. cbn [altp2m_p2m vcpus] in HI'.
    rewrite list_lookup_insert_eq in HI' by done. specialize (HI' eq_refl).
    rewrite (bound_count_insert 0 n (vcpus d) v (mk_vcpu 0) Hv) in HI'.
    cbn [ap2m_idx with_active_vcpus active_vcpus] in HI'.
    rewrite !decide_True in HI' by done.
    rewrite (HI 0%nat p0 Hp0) in HI'. unfold atomic_inc in HI'.
    apply (wrap_int_succ_ne (Z.of_nat (bound_count 0 (vcpus d)))); [lia|].
    rewrite HI'. lia.
  - specialize (HI' (ap2m_idx v) pj).
    unfold slot in HI' at 1. cbn [altp2m_p2m vcpus] in HI'.
    rewrite list_lookup_insert_ne in HI' by done.
    fold (slot d (ap2m_idx v)) in HI'. specialize (HI' Hpj).
    rewrite (bound_count_insert _ n (vcpus d) v (mk_vcpu 0) Hv) in HI'.
    cbn [ap2m_idx] in HI'.
    rewrite decide_True in HI' by done.
    rewrite decide_False in HI' by congruence.
    rewrite (HI _ pj Hpj) in HI'. lia.
Qed.

End ConsistentUse.

(** In [dom_two_views] both vcpus are bound, so the switch to view 1
    completes. *)
Lemma switch_completes_when_bound_witness :
  exists d',
    altp2m_switch_domain_altp2m_by_id xen_MAX_ALTP2M xen_INVALID_ALTP2M 1
      dom_two_views
    = Done 0 d'
        [EvDomainPauseExceptSelf; EvLock; EvUnlock; EvDomainUnpauseExceptSelf] /\
    vcpus d' = [mk_vcpu 1; mk_vcpu 1].
Proof.
  destruct (switch_completes_when_bound xen_MAX_ALTP2M xen_INVALID_ALTP2M
              xen_MAX_le_INVALID 1 dom_two_views dom_two_views_consistent)
    as (d' & Hrun & _ & Hvs).
  - intros v Hv.
    repeat (apply elem_of_cons in Hv as [->|Hv];
            [apply Nat.eqb_neq; vm_compute; reflexivity|]).
    by apply elem_of_nil in Hv.
  - vm_compute. lia.
  - by eexists.
  - exists d'. split; [exact Hrun|exact Hvs].
Defined.

(** Initialising the first vcpu of [dom_two_views] again brings the
    counter of view 0 to three with two vcpus bound. *)
Lemma vcpu_initialize_bound_loses_I2_witness :
  exists d',
    altp2m_vcpu_initialize xen_MAX_ALTP2M xen_INVALID_ALTP2M 0 dom_two_views
      = Done tt d' [EvVcpuPause 0; EvVcpuUnpause 0] /\
    slot d' 0 = view 3 /\ vcpus d' = [mk_vcpu 0; mk_vcpu 0] /\
    ~ I2 d'.
Proof.
  assert (Hrun : altp2m_vcpu_initialize xen_MAX_ALTP2M xen_INVALID_ALTP2M 0
                   dom_two_views
                 = Done tt
                     (mk_domain
                        [view 3; view 0; None; None; None; None; None; None;
                         None; None] true [mk_vcpu 0; mk_vcpu 0])
                     [EvVcpuPause 0; EvVcpuUnpause 0])
    by (vm_compute; reflexivity).
  eexists. split; [exact Hrun|]. split; [reflexivity|]. split; [reflexivity|].
  refine (vcpu_initialize_bound_loses_I2 xen_MAX_ALTP2M xen_INVALID_ALTP2M
            xen_MAX_le_INVALID 0 dom_two_views (mk_vcpu 0) _ _
            dom_two_views_consistent eq_refl _ Hrun).
  apply Nat.eqb_neq. vm_compute. reflexivity.
Defined.

(** ** Destroying and flushing after vcpus have moved *)

Section AfterMoving.
Variables MAX_ALTP2M INVALID_ALTP2M : nat.
Hypothesis MAX_le_INVALID : (MAX_ALTP2M <= INVALID_ALTP2M)%nat.

(** X18. Once a consistent domain has been switched to view [k], every
    other view except view 0 can be destroyed: [altp2m_destroy_by_id]
    returns 0 for it and empties its slot.  View [k] itself is refused
    with [-EBUSY] as long as the domain has a vcpu. *)
Theorem destroy_after_switch k j d d' log :
  consistent MAX_ALTP2M INVALID_ALTP2M d ->
  altp2m_switch_domain_altp2m_by_id MAX_ALTP2M INVALID_ALTP2M k d
    = Done 0 d' log ->
  (j <> k -> (0 < j < MAX_ALTP2M)%nat -> is_Some (slot d j) ->
   exists d'',
     altp2m_destroy_by_id MAX_ALTP2M j d'
     = Done 0 d''
         ([EvDomainPauseExceptSelf; EvLock] ++ flush_events j
          ++ [EvUnlock; EvDomainUnpauseExceptSelf]) /\
     slot d'' j = None) /\
  (vcpus d <> [] ->
   altp2m_destroy_by_id MAX_ALTP2M k d'
   = Done (- EBUSY) d'
       (if decide (k = 0%nat) then []
        else [EvDomainPauseExceptSelf; EvLock; EvUnlock;
              EvDomainUnpauseExceptSelf])).
Proof.
  intros Hc Hrun.
  destruct (switch_consistent_result MAX_ALTP2M INVALID_ALTP2M MAX_le_INVALID
              k d d' log Hc Hrun) as (_ & Hvs & _ & Hsl).
  assert (Hk : (k < MAX_ALTP2M)%nat /\ is_Some (slot d k)).
  { rewrite switch_domain_run in Hrun.
    destruct (decide (MAX_ALTP2M <= k)%nat); [done|]. split; [lia|].
    destruct (slot d k); [by eexists|done]. }
  destruct Hk as [Hkm [pk Hpk]]. split.
  - intros Hne Hj [pj Hpj]. rewrite destroy_by_id_run.
    rewrite decide_False by lia. rewrite Hsl, Hpj.
    cbn [fmap option_fmap option_map].
    rewrite (decide_False (P := j = k)) by done.
    cbn [with_active_vcpus active_vcpus]. rewrite decide_True by done.
    eexists. split; [reflexivity|].
    apply slot_insert_eq. rewrite Hsl, Hpj. by eexists.
  - intros Hvcpus. rewrite destroy_by_id_run.
    destruct (decide (k = 0%nat)) as [->|Hk0].
    + by rewrite decide_True by (by left).
    + rewrite decide_False by lia. rewrite Hsl, Hpk.
      cbn [fmap option_fmap option_map].
      rewrite (decide_True (P := k = k)) by done.
      cbn [with_active_vcpus active_vcpus].
      rewrite decide_False; [done|].
      destruct (vcpus d); [done|]. simpl. lia.
Qed.

(** X19. The way altp2m is shut down works: in a consistent domain with
    altp2m inactive and every vcpu unbound, [altp2m_flush] passes both
    assertions, empties every slot and leaves a consistent domain. *)
Theorem flush_after_unbinding d :
  consistent MAX_ALTP2M INVALID_ALTP2M d ->
  altp2m_active d = false ->
  (forall v, v ∈ vcpus d -> ap2m_idx v = INVALID_ALTP2M) ->
  exists d',
    altp2m_flush MAX_ALTP2M d
    = Done tt d'
        (EvLock :: flat_map flush_events (occupied_below d MAX_ALTP2M)
         ++ [EvUnlock]) /\
    (forall i, slot d' i = None) /\
    vcpus d' = vcpus d /\
    consistent MAX_ALTP2M INVALID_ALTP2M d'.
Proof.
  intros Hc Hact Hunbound.
  destruct (flush_outcome MAX_ALTP2M d) as (_ & _ & Htotal & Hpost).
  destruct Htotal as (d' & log & Hrun); [done| |].
  { intros i p Hi Hp. destruct Hc as (_ & _ & _ & HI).
    rewrite (HI i p Hp). rewrite bound_count_zero; [done|].
    intros v Hv Hidx. rewrite (Hunbound v Hv) in Hidx. lia. }
  destruct (Hpost d' log Hrun) as (_ & _ & Hempty & Hvs & _ & Hlog & _).
  pose proof (flush_consistent MAX_ALTP2M INVALID_ALTP2M MAX_le_INVALID
                d d' log Hrun Hc) as Hc'.
  exists d'. rewrite Hrun, Hlog. split; [done|]. split; [|done].
  intros i. destruct (decide (i < MAX_ALTP2M)%nat); [by apply Hempty|].
  destruct (slot d' i) as [p|] eqn:Hp; [|done].
  destruct Hc' as (Hlen & _). apply slot_Some_lt in Hp. lia.
Qed.

End AfterMoving.

(** [dom_switched] switched back to view 0 is [dom_two_views]; view 1 can
    then be destroyed, view 0 cannot. *)
Lemma destroy_after_switch_witness :
  (exists d'',
     altp2m_destroy_by_id xen_MAX_ALTP2M 1 dom_two_views
     = Done 0 d''
         [EvDomainPauseExceptSelf; EvLock; EvTeardownOne 1; EvXfree 1;
          EvStoreNull 1; EvUnlock; EvDomainUnpauseExceptSelf] /\
     slot d'' 1 = None) /\
  altp2m_destroy_by_id xen_MAX_ALTP2M 0 dom_two_views
  = Done (- EBUSY) dom_two_views [].
Proof.
  assert (Hrun : altp2m_switch_domain_altp2m_by_id xen_MAX_ALTP2M
                   xen_INVALID_ALTP2M 0 dom_switched
                 = Done 0 dom_two_views
                     [EvDomainPauseExceptSelf; EvLock; EvUnlock;
                      EvDomainUnpauseExceptSelf])
    by (vm_compute; reflexivity).
  destruct (destroy_after_switch xen_MAX_ALTP2M xen_INVALID_ALTP2M
              xen_MAX_le_INVALID 0 1 dom_switched dom_two_views _
              dom_switched_consistent Hrun) as [Hfree Hbusy].
  split.
  - apply Hfree; [discriminate|vm_compute; lia|by eexists].
  - apply Hbusy. discriminate.
Defined.

Lemma dom_inactive_consistent :
  consistent xen_MAX_ALTP2M xen_INVALID_ALTP2M dom_inactive.
Proof.
  split; [reflexivity|]. split; [cbn; unfold INT_MAX; lia|]. split.
  - intros v Hv. left.
    repeat (apply elem_of_cons in Hv as [->|Hv]; [done|]).
    by apply elem_of_nil in Hv.
  - intros i p Hp. assert (Hz : active_vcpus p = 0).
    { revert Hp.
      do 10 (destruct i as [|i];
             [cbv [slot dom_inactive altp2m_p2m lookup list_lookup view];
              intros Hp; try discriminate; by injection Hp as <-|]).
      cbv [slot dom_inactive altp2m_p2m lookup list_lookup view].
      discriminate. }
    rewrite Hz. rewrite bound_count_zero; [done|].
    intros v Hv. cbn [vcpus dom_inactive] in Hv.
    repeat (apply elem_of_cons in Hv as [->|Hv];
            [cbn [ap2m_idx]; intros Hi; subst i; by vm_compute in Hp|]).
    by apply elem_of_nil in Hv.
Qed.

(** [dom_inactive] is in that state: its flush completes and empties the
    table. *)
Lemma flush_after_unbinding_witness :
  exists d',
    altp2m_flush xen_MAX_ALTP2M dom_inactive
    = Done tt d'
        [EvLock; EvTeardownOne 0; EvXfree 0; EvStoreNull 0;
         EvTeardownOne 2; EvXfree 2; EvStoreNull 2; EvUnlock] /\
    (forall i, slot d' i = None).
Proof.
  destruct (flush_after_unbinding xen_MAX_ALTP2M xen_INVALID_ALTP2M
              xen_MAX_le_INVALID dom_inactive dom_inactive_consistent)
    as (d' & Hrun & Hempty & _).
  - reflexivity.
  - intros v Hv.
    repeat (apply elem_of_cons in Hv as [->|Hv]; [done|]).
    by apply elem_of_nil in Hv.
  - exists d'. split; [exact Hrun|exact Hempty].
Defined.
